(** * Verification of the scrapers repository

  A shallow embedding of the two scripts of the repository,
  [leakixscraper.py] (class [WebsiteScraper]) and [scraper.py] (class
  [TwitterScraper]), and the properties of their retry, pagination,
  extraction and saving logic.

  - Python integers are unbounded: counters are [nat], identifiers and
    status codes are [Z].
  - Durations handed to [time.sleep] are exact rationals ([Q]); the
    rounding of Python floats is not modelled.
  - Text is a [string] of ASCII characters.
  - The effects of a run (printing, HTTP requests, API calls, sleeping,
    random draws, file writes) are threaded through an explicit [world],
    which also holds what the outside answers: the reply to the n-th
    HTTP request, the outcome of the n-th API call, the n-th random
    number.
  - Library functions are parameters ([urljoin], the HTML parser, the
    CSV and JSON serialisers) or small models ([select], [select_one],
    [text], [strip]).  They are total: an exception a library raises
    other than the ones the scripts handle ([requests.RequestException],
    [tweepy.TweepyException], the [KeyError] of a missing attribute) is
    outside the model. *)

From Stdlib Require Import ZArith QArith Qround Lqa String Ascii List.
From stdpp Require Import base option list gmap strings pretty.

Set Warnings "-register-all".

Local Open Scope string_scope.
Local Open Scope list_scope.

(** ** bs4: the parsed document *)

Module Bs4.

(** A parsed document is a tree of tags and strings.  A tag carries its
    name, the values of its [class] attribute, its other attributes and
    its contents in document order. *)
Inductive node : Type :=
| NavigableString (s : string)
| Tag (name : string) (classes : list string)
      (attrs : gmap string string) (contents : list node).

(** The two forms of CSS selector the scripts use: ['name'] and
    ['name.class']. *)
Record selector : Type := Selector {
  sel_name : string;
  sel_class : option string
}.

Definition has_class (c : string) (cs : list string) : bool :=
  existsb (String.eqb c) cs.

Definition matches (sel : selector) (n : node) : bool :=
  match n with
  | NavigableString _ => false
  | Tag name classes _ _ =>
      String.eqb (sel_name sel) name &&
      match sel_class sel with
      | None => true
      | Some c => has_class c classes
      end
  end.

(** Every node strictly below [n], in document order. *)
Fixpoint descendants (n : node) : list node :=
  match n with
  | NavigableString _ => []
  | Tag _ _ _ contents => flat_map (fun c => c :: descendants c) contents
  end.

(** [element.select(sel)]: the matching descendants, in document order. *)
Definition select (n : node) (sel : selector) : list node :=
  List.filter (matches sel) (descendants n).

(** [element.select_one(sel)]: the first match, or [None]. *)
Definition select_one (n : node) (sel : selector) : option node :=
  head (select n sel).

(** [element.text]: all strings below the element, concatenated. *)
Fixpoint text (n : node) : string :=
  match n with
  | NavigableString s => s
  | Tag _ _ _ contents => String.concat "" (map text contents)
  end.

(** [tag[key]]: the attribute, [None] standing for [KeyError]. *)
Definition getitem (n : node) (key : string) : option string :=
  match n with
  | NavigableString _ => None
  | Tag _ _ attrs _ => attrs !! key
  end.

End Bs4.

(** ** str.strip *)

Module Str.

(** The ASCII characters [str.isspace] accepts: tab to carriage return,
    the four separators 28..31, and the space. *)
Definition is_space (c : ascii) : bool :=
  let n := nat_of_ascii c in
  ((9 <=? n)%nat && (n <=? 13)%nat) || ((28 <=? n)%nat && (n <=? 32)%nat).

Fixpoint lstrip (s : string) : string :=
  match s with
  | EmptyString => EmptyString
  | String c s' => if is_space c then lstrip s' else s
  end.

Fixpoint rstrip (s : string) : string :=
  match s with
  | EmptyString => EmptyString
  | String c s' =>
      match rstrip s' with
      | EmptyString => if is_space c then EmptyString else String c EmptyString
      | r => String c r
      end
  end.

Definition strip (s : string) : string := rstrip (lstrip s).

End Str.

(** ** requests and tweepy: what the remote side answers *)

Module Requests.

(** The outcome of one [session.get]: a response with its status code and
    body, or a [requests.RequestException]. *)
Inductive reply : Type :=
| Response (status_code : Z) (body : string)
| RequestException (err : string).

End Requests.

Module Tweepy.

Record PublicMetrics : Type := {
  retweet_count : Z;
  reply_count : Z;
  like_count : Z;
  quote_count : Z
}.

Record Tweet : Type := {
  id : Z;
  text : string;
  author_id : option Z;
  created_at : string;
  public_metrics : PublicMetrics;
  lang : option string
}.

Record User : Type := {
  user_id : Z;
  name : string;
  username : string;
  location : option string;
  verified : option bool
}.

(** [response.data] is [None] or a list; [response.includes] may or may
    not have the key ['users']. *)
Record Response : Type := {
  data : option (list Tweet);
  includes_users : option (list User)
}.

(** The arguments of [client.search_recent_tweets] that vary from call
    to call. *)
Record SearchRequest : Type := {
  query : string;
  max_results : Z;
  start_time : option string;
  end_time : option string
}.

(** The outcome of one API call: a response, [tweepy.TooManyRequests], or
    any other [tweepy.TweepyException]. *)
Inductive outcome : Type :=
| Ok (r : Response)
| TooManyRequests
| TweepyException (err : string).

End Tweepy.

(** ** The world a run acts on *)

(** What the scripts print, one constructor per [print] statement. *)
Inductive message : Type :=
| MsgFetching (full_url : string)
| MsgFailedStatus (full_url : string) (status_code : Z)
| MsgErrorFetching (full_url : string) (err : string)
| MsgRetrying (sleep_time : Q)
| MsgErrorParsingCard (key : string)
| MsgNoResults (page : nat)
| MsgErrorParsingItem (key : string)
| MsgWaiting (sleep_time : Q)
| MsgNoData (filename : string)
| MsgSavedItems (n : nat) (filename : string)
| MsgNoTweetsFound
| MsgRateLimit (retry_delay : Z)
| MsgMaxRetries
| MsgError (err : string)
| MsgNoTweets (filename : string)
| MsgSavedTweets (n : nat) (filename : string).

(** The observable effects of a run, in the order they happen. *)
Inductive event : Type :=
| EPrint (m : message)
| EGet (full_url : string)
| ESearch (r : Tweepy.SearchRequest)
| ESleep (seconds : Q).

(** [network n url] is the outcome of the [n]-th HTTP request of the run
    when it asks for [url]; [twitter n r] the outcome of the [n]-th API
    call; [entropy n] the [n]-th value of [random.random()]. *)
Record world : Type := World {
  network : nat -> string -> Requests.reply;
  requests : nat;
  twitter : nat -> Tweepy.SearchRequest -> Tweepy.outcome;
  api_calls : nat;
  entropy : nat -> Q;
  draws : nat;
  log : list event;
  files : gmap string string
}.

(** Computations that act on the world. *)
Definition M (A : Type) : Type := world -> A * world.

Definition ret {A : Type} (a : A) : M A := fun w => (a, w).

Definition bind {A B : Type} (m : M A) (k : A -> M B) : M B :=
  fun w => let (a, w') := m w in k a w'.

Declare Scope world_scope.
Delimit Scope world_scope with world.
Notation "x <- c ;; k" := (bind c (fun x => k))
  (at level 100, c at next level, right associativity) : world_scope.
Notation "c ;; k" := (bind c (fun _ => k))
  (at level 100, right associativity) : world_scope.

Definition emit (e : event) : M unit :=
  fun w => (tt, World (network w) (requests w) (twitter w) (api_calls w)
                      (entropy w) (draws w) (log w ++ [e]) (files w)).

(** [print(...)] *)
Definition print (m : message) : M unit := emit (EPrint m).

(** [time.sleep(seconds)] *)
Definition time_sleep (seconds : Q) : M unit := emit (ESleep seconds).

(** [session.get(full_url, headers=..., timeout=10)] *)
Definition session_get (full_url : string) : M Requests.reply :=
  fun w => (network w (requests w) full_url,
            World (network w) (S (requests w)) (twitter w) (api_calls w)
                  (entropy w) (draws w) (log w ++ [EGet full_url]) (files w)).

(** [client.search_recent_tweets(...)] *)
Definition search_recent_tweets (r : Tweepy.SearchRequest) : M Tweepy.outcome :=
  fun w => (twitter w (api_calls w) r,
            World (network w) (requests w) (twitter w) (S (api_calls w))
                  (entropy w) (draws w) (log w ++ [ESearch r]) (files w)).

(** [random.uniform(a, b)], which is [a + (b - a) * random.random()]. *)
Definition random_uniform (a b : Q) : M Q :=
  fun w => ((a + (b - a) * entropy w (draws w))%Q,
            World (network w) (requests w) (twitter w) (api_calls w)
                  (entropy w) (S (draws w)) (log w) (files w)).

(** Creating or truncating [filename] and writing [content] to it. *)
Definition write_file (filename content : string) : M unit :=
  fun w => (tt, World (network w) (requests w) (twitter w) (api_calls w)
                      (entropy w) (draws w) (log w)
                      (<[filename := content]> (files w))).

(** A Python expression either has a value or raises; the only exception
    the element parsers can meet is the [KeyError] of a missing
    attribute. *)
Inductive result (A : Type) : Type :=
| Value (a : A)
| KeyError (key : string).
Arguments Value {A} a.
Arguments KeyError {A} key.

Local Open Scope world_scope.

(** ** leakixscraper.py *)

Module LeakIX.

Import Bs4.

(** The dictionaries built per homepage card and per search result. *)
Record service_data : Type := ServiceData {
  card_title : string;
  card_description : string;
  card_url : option string;
  card_timestamp : string
}.

Record result_data : Type := ResultData {
  title : string;
  description : string;
  url : option string;
  details : gmap string string
}.

Section WebsiteScraper.

(** Library functions the class calls: [urllib.parse.urljoin] (taken to
    accept every reference), the ['html.parser'] of [BeautifulSoup], and
    the serialisers behind [DataFrame.to_csv] and [json.dump]. *)
Variable urljoin : string -> string -> string.
Variable BeautifulSoup : string -> node.
Variable A : Type.
Variable to_csv : list A -> string.
Variable json_dump : list A -> string.

(** [self.base_url] *)
Variable base_url : string.

(** [sleep_time = 2 ** attempt + random.uniform(0, 1)], given the value
    [jitter] of [random.uniform(0, 1)]. *)
Definition backoff_delay (attempt : nat) (jitter : Q) : Q :=
  (inject_Z (2 ^ Z.of_nat attempt) + jitter)%Q.

(** The body of [for attempt in range(retry_count)] in [get_page], with
    [remaining] iterations left. *)
Fixpoint get_page_attempts (full_url : string) (retry_count attempt remaining : nat)
  : M (option node) :=
  match remaining with
  | O => ret None
  | S remaining' =>
      (* the code after the [try] statement, then the next iteration *)
      let wait_and_retry : M (option node) :=
        (if (attempt <? retry_count - 1)%nat then
           jitter <- random_uniform 0 1;;
           let sleep_time := backoff_delay attempt jitter in
           print (MsgRetrying sleep_time);;
           time_sleep sleep_time
         else ret tt);;
        get_page_attempts full_url retry_count (S attempt) remaining' in
      print (MsgFetching full_url);;
      response <- session_get full_url;;
      match response with
      | Requests.Response status_code body =>
          if (status_code =? 200)%Z then ret (Some (BeautifulSoup body))
          else print (MsgFailedStatus full_url status_code);; wait_and_retry
      | Requests.RequestException e =>
          print (MsgErrorFetching full_url e);; wait_and_retry
      end
  end.

Definition get_page (url : string) (retry_count : nat) : M (option node) :=
  let full_url := urljoin base_url url in
  get_page_attempts full_url retry_count 0 retry_count.

(** [e.text.strip() if e else "N/A"], for [e] the result of a
    [select_one]. *)
Definition text_or_NA (e : option node) : string :=
  match e with
  | Some e => Str.strip (text e)
  | None => "N/A"
  end.

(** [urljoin(self.base_url, a['href']) if a else None], for [a] the
    result of [select_one('a')]. *)
Definition href_or_None (a : option node) : result (option string) :=
  match a with
  | Some a =>
      match getitem a "href" with
      | Some href => Value (Some (urljoin base_url href))
      | None => KeyError "href"
      end
  | None => Value None
  end.

Definition div_card : selector := Selector "div" (Some "card").
Definition h3_card_title : selector := Selector "h3" (Some "card-title").
Definition p_card_text : selector := Selector "p" (Some "card-text").
Definition a_ : selector := Selector "a" None.
Definition span_date : selector := Selector "span" (Some "date").

(** The dictionary display of [scrape_leakix_homepage]. *)
Definition service_data_of (card : node) : result service_data :=
  let title := text_or_NA (select_one card h3_card_title) in
  let description := text_or_NA (select_one card p_card_text) in
  match href_or_None (select_one card a_) with
  | KeyError k => KeyError k
  | Value url =>
      let timestamp := text_or_NA (select_one card span_date) in
      Value (ServiceData title description url timestamp)
  end.

(** [for card in service_cards: try: ... except Exception: print(...)] *)
Fixpoint parse_cards (service_cards : list node) (results : list service_data)
  : M (list service_data) :=
  match service_cards with
  | [] => ret results
  | card :: rest =>
      match service_data_of card with
      | Value service_data => parse_cards rest (results ++ [service_data])
      | KeyError k => print (MsgErrorParsingCard k);; parse_cards rest results
      end
  end.

Definition scrape_leakix_homepage : M (list service_data) :=
  soup <- get_page "/" 3;;
  match soup with
  | None => ret []
  | Some soup => parse_cards (select soup div_card) []
  end.

Definition div_detail_item : selector := Selector "div" (Some "detail-item").
Definition span_detail_key : selector := Selector "span" (Some "detail-key").
Definition span_detail_value : selector := Selector "span" (Some "detail-value").

(** The loop of [_extract_details] over the detail items.  No operation
    of its [try] body raises, so the handler is never entered. *)
Fixpoint extract_detail_items (detail_elements : list node)
  (details : gmap string string) : gmap string string :=
  match detail_elements with
  | [] => details
  | detail :: rest =>
      let key_elem := select_one detail span_detail_key in
      let value_elem := select_one detail span_detail_value in
      match key_elem, value_elem with
      | Some key_elem, Some value_elem =>
          let key := Str.strip (text key_elem) in
          let value := Str.strip (text value_elem) in
          extract_detail_items rest (<[key := value]> details)
      | _, _ => extract_detail_items rest details
      end
  end.

Definition _extract_details (element : node) : gmap string string :=
  extract_detail_items (select element div_detail_item) ∅.

Definition div_search_result : selector := Selector "div" (Some "search-result").
Definition h4_result_title : selector := Selector "h4" (Some "result-title").
Definition div_result_description : selector :=
  Selector "div" (Some "result-description").

(** The dictionary display of [scrape_search_results]. *)
Definition result_data_of (item : node) : result result_data :=
  let title := text_or_NA (select_one item h4_result_title) in
  let description := text_or_NA (select_one item div_result_description) in
  match href_or_None (select_one item a_) with
  | KeyError k => KeyError k
  | Value url => Value (ResultData title description url (_extract_details item))
  end.

(** [for item in result_items: try: ... except Exception: print(...)] *)
Fixpoint parse_items (result_items : list node) (all_results : list result_data)
  : M (list result_data) :=
  match result_items with
  | [] => ret all_results
  | item :: rest =>
      match result_data_of item with
      | Value result_data => parse_items rest (all_results ++ [result_data])
      | KeyError k => print (MsgErrorParsingItem k);; parse_items rest all_results
      end
  end.

(** [f"/search?q={query}&page={page}"] *)
Definition search_url (query : string) (page : nat) : string :=
  "/search?q=" +:+ query +:+ "&page=" +:+ pretty page.

(** The body of [for page in range(1, pages + 1)], with [remaining]
    iterations left. *)
Fixpoint scrape_pages (query : string) (pages page remaining : nat)
  (all_results : list result_data) : M (list result_data) :=
  match remaining with
  | O => ret all_results
  | S remaining' =>
      let url := search_url query page in
      soup <- get_page url 3;;
      match soup with
      | None => ret all_results
      | Some soup =>
          let result_items := select soup div_search_result in
          match result_items with
          | [] => print (MsgNoResults page);; ret all_results
          | _ :: _ =>
              all_results <- parse_items result_items all_results;;
              (if (page <? pages)%nat then
                 sleep_time <- random_uniform 2 5;;
                 print (MsgWaiting sleep_time);;
                 time_sleep sleep_time
               else ret tt);;
              scrape_pages query pages (S page) remaining' all_results
          end
      end
  end.

Definition scrape_search_results (query : string) (pages : nat)
  : M (list result_data) :=
  scrape_pages query pages 1 pages [].

Definition save_to_csv (data : list A) (filename : string) : M unit :=
  match data with
  | [] => print (MsgNoData filename)
  | _ :: _ =>
      write_file filename (to_csv data);;
      print (MsgSavedItems (length data) filename)
  end.

Definition save_to_json (data : list A) (filename : string) : M unit :=
  match data with
  | [] => print (MsgNoData filename)
  | _ :: _ =>
      write_file filename (json_dump data);;
      print (MsgSavedItems (length data) filename)
  end.

End WebsiteScraper.

End LeakIX.

(** ** scraper.py *)

Module Twitter.

(** The author entries a tweet dictionary gets when its author is among
    the included users. *)
Record author_data : Type := AuthorData {
  author_id : Z;
  author_name : string;
  author_username : string;
  author_location : option string;
  author_verified : option bool
}.

Record tweet_data : Type := TweetData {
  id : Z;
  text : string;
  created_at : string;
  retweet_count : Z;
  reply_count : Z;
  like_count : Z;
  quote_count : Z;
  lang : option string;
  author : option author_data
}.

(** [{user.id: user for user in response.includes['users']}
     if 'users' in response.includes else {}] *)
Definition users_of (response : Tweepy.Response) : gmap Z Tweepy.User :=
  match Tweepy.includes_users response with
  | Some users => foldl (fun m user => <[Tweepy.user_id user := user]> m) ∅ users
  | None => ∅
  end.

(** The body of [for tweet in response.data]. *)
Definition tweet_data_of (users : gmap Z Tweepy.User) (tweet : Tweepy.Tweet)
  : tweet_data :=
  let metrics := Tweepy.public_metrics tweet in
  TweetData (Tweepy.id tweet) (Tweepy.text tweet) (Tweepy.created_at tweet)
    (Tweepy.retweet_count metrics) (Tweepy.reply_count metrics)
    (Tweepy.like_count metrics) (Tweepy.quote_count metrics)
    (Tweepy.lang tweet)
    (match Tweepy.author_id tweet with
     | Some author_id =>
         match users !! author_id with
         | Some user =>
             Some (AuthorData (Tweepy.user_id user) (Tweepy.name user)
                     (Tweepy.username user) (Tweepy.location user)
                     (Tweepy.verified user))
         | None => None
         end
     | None => None
     end).

Definition max_retries : nat := 5.

(** [while retry_count <= max_retries: ...], run for at most [fuel]
    iterations; [None] when the fuel runs out before the loop ends. *)
Fixpoint search_loop (fuel : nat) (request : Tweepy.SearchRequest)
  (retry_count : nat) (retry_delay : Z) (tweets : list tweet_data)
  : M (option (list tweet_data)) :=
  match fuel with
  | O => ret None
  | S fuel' =>
      if (retry_count <=? max_retries)%nat then
        response <- search_recent_tweets request;;
        match response with
        | Tweepy.Ok response =>
            match Tweepy.data response with
            | None | Some [] => print MsgNoTweetsFound;; ret (Some tweets)
            | Some ((_ :: _) as data) =>
                let users := users_of response in
                ret (Some (tweets ++ map (tweet_data_of users) data))
            end
        | Tweepy.TooManyRequests =>
            if (retry_count <? max_retries)%nat then
              print (MsgRateLimit retry_delay);;
              time_sleep (inject_Z retry_delay);;
              search_loop fuel' request (S retry_count) (retry_delay * 2)%Z tweets
            else
              print MsgMaxRetries;; ret (Some tweets)
        | Tweepy.TweepyException e => print (MsgError e);; ret (Some tweets)
        end
      else ret (Some tweets)
  end.

(** [search_tweets]: the request size is [min(max_results, 100)]; the
    loop starts with [retry_count = 0] and [retry_delay = 60].  Each
    iteration that does not leave the loop adds one to [retry_count], so
    [max_retries + 2] iterations are enough. *)
Definition search_tweets (query : string) (max_results : Z)
  (start_time end_time : option string) : M (option (list tweet_data)) :=
  let request_size := Z.min max_results 100 in
  search_loop (max_retries + 2)
    (Tweepy.Build_SearchRequest query request_size start_time end_time)
    0 60%Z [].

Section Saving.

(** The serialisers behind [DataFrame.to_csv] and [json.dump]. *)
Variable A : Type.
Variable to_csv : list A -> string.
Variable json_dump : list A -> string.

Definition save_to_csv (tweets : list A) (filename : string) : M unit :=
  match tweets with
  | [] => print (MsgNoTweets filename)
  | _ :: _ =>
      write_file filename (to_csv tweets);;
      print (MsgSavedTweets (length tweets) filename)
  end.

Definition save_to_json (tweets : list A) (filename : string) : M unit :=
  match tweets with
  | [] => print (MsgNoTweets filename)
  | _ :: _ =>
      write_file filename (json_dump tweets);;
      print (MsgSavedTweets (length tweets) filename)
  end.

End Saving.

End Twitter.

(** ** The rest of leakixscraper.py: service details and the command line *)

(** The lines that only the two [main] functions print.  They are not
    among the [message]s of the classes: a run of [main] keeps them
    beside the log of its world, each with the number of events logged
    before it, so that the order of all output can still be read off. *)
Inductive banner : Type :=
| BannerScrapingHomepage
| BannerQueryRequired
| BannerSearching (query : string) (pages : Z)
| BannerUrlRequired
| BannerScrapingDetails (url : string)
| BannerCountWarning
| BannerSearchingTweets (query : string)
| BannerRetrieved (n : nat).

Record console : Type := Console {
  world_of : world;
  banners : list (nat * banner)
}.

(** Computations of a command line. *)
Definition App (A : Type) : Type := console -> A * console.

Definition app_ret {A : Type} (a : A) : App A := fun c => (a, c).

Definition app_bind {A B : Type} (m : App A) (k : A -> App B) : App B :=
  fun c => let (a, c') := m c in k a c'.

(** Running a computation of the classes on the world of the console. *)
Definition lift {A : Type} (m : M A) : App A :=
  fun c => let (a, w') := m (world_of c) in (a, Console w' (banners c)).

(** [print(...)] in a [main]. *)
Definition say (b : banner) : App unit :=
  fun c => (tt, Console (world_of c)
                        (banners c ++ [(length (log (world_of c)), b)])).

Declare Scope app_scope.
Delimit Scope app_scope with app.
Notation "x <- c ;; k" := (app_bind c (fun x => k))
  (at level 100, c at next level, right associativity) : app_scope.
Notation "c ;; k" := (app_bind c (fun _ => k))
  (at level 100, right associativity) : app_scope.

(** [--format], one of ['csv'] and ['json']. *)
Inductive format : Type := Csv | Json.

Module LeakIXApp.

Import Bs4 LeakIX.

(** What [main] hands to the saving functions: the dictionaries of the
    homepage, of the search results, or the one of a service. *)
Inductive record : Type :=
| ServiceRecord (d : service_data)
| ResultRecord (d : result_data)
| DetailsRecord (d : gmap string string).

(** [--mode], one of ['home'], ['search'] and ['details']: [argparse]
    refuses any other, so the last branch of [main] is never taken. *)
Inductive mode : Type := Home | Search | Details.

Record args : Type := Args {
  arg_mode : mode;
  arg_query : option string;
  arg_url : option string;
  arg_pages : Z;
  arg_output : string;
  arg_format : format
}.

Definition h1_service_title : selector := Selector "h1" (Some "service-title").
Definition table_info_table : selector := Selector "table" (Some "info-table").
Definition tr : selector := Selector "tr" None.
Definition td : selector := Selector "td" None.

(** [for row in rows: ...] in [scrape_service_details]. *)
Fixpoint table_rows (rows : list node) (details : gmap string string)
  : gmap string string :=
  match rows with
  | [] => details
  | row :: rest =>
      let cells := select row td in
      match cells with
      | cell0 :: cell1 :: _ =>
          let key := Str.strip (text cell0) in
          let value := Str.strip (text cell1) in
          table_rows rest (<[key := value]> details)
      | _ => table_rows rest details
      end
  end.

Section WebsiteScraper.

Variable urljoin : string -> string -> string.
Variable BeautifulSoup : string -> node.
Variable to_csv : list record -> string.
Variable json_dump : list record -> string.
Variable base_url : string.

Definition scrape_service_details (service_url : string)
  : M (gmap string string) :=
  (soup <- get_page urljoin BeautifulSoup base_url service_url 3;;
   match soup with
   | None => ret ∅
   | Some soup =>
       let details : gmap string string :=
         <["title" := text_or_NA (select_one soup h1_service_title)]>
           (<["url" := service_url]> ∅) in
       let info_table := select_one soup table_info_table in
       match info_table with
       | Some info_table =>
           let rows := select info_table tr in
           ret (table_rows rows details)
       | None => ret details
       end
   end)%world.

End WebsiteScraper.

Section Main.

Variable urljoin : string -> string -> string.
Variable BeautifulSoup : string -> node.
Variable to_csv : list record -> string.
Variable json_dump : list record -> string.

(** [scraper = WebsiteScraper("https://leakix.net")] *)
Definition site : string := "https://leakix.net".

(** [if not args.query]: the option was not given, or is empty. *)
Definition given (arg : option string) : option string :=
  match arg with
  | Some "" => None
  | Some value => Some value
  | None => None
  end.

(** The saving at the end of [main]. *)
Definition save (a : args) (data : list record) : App unit :=
  match arg_format a with
  | Csv => lift (save_to_csv record to_csv data (arg_output a))
  | Json => lift (save_to_json record json_dump data (arg_output a))
  end.

(** [main], given the parsed arguments.  [range(1, pages + 1)] is empty
    for a number of pages below 1, as is the loop over [Z.to_nat] of
    it. *)
Definition main (a : args) : App unit :=
  (match arg_mode a with
   | Home =>
       say BannerScrapingHomepage;;
       data <- lift (scrape_leakix_homepage urljoin BeautifulSoup site);;
       save a (map ServiceRecord data)
   | Search =>
       match given (arg_query a) with
       | None => say BannerQueryRequired
       | Some query =>
           say (BannerSearching query (arg_pages a));;
           data <- lift (scrape_search_results urljoin BeautifulSoup site
                           query (Z.to_nat (arg_pages a)));;
           save a (map ResultRecord data)
       end
   | Details =>
       match given (arg_url a) with
       | None => say BannerUrlRequired
       | Some url =>
           say (BannerScrapingDetails url);;
           details <- lift (scrape_service_details urljoin BeautifulSoup site url);;
           save a [DetailsRecord details]
       end
   end)%app.

End Main.

End LeakIXApp.

(** ** The rest of scraper.py: the command line *)

Module TwitterApp.

Record args : Type := Args {
  arg_token : string;
  arg_query : string;
  arg_count : Z;
  arg_output : string;
  arg_format : format;
  arg_days : Z
}.

Section Main.

(** The serialisers, what [datetime.datetime.now(datetime.timezone.utc)]
    returns when [main] asks, and [moment - datetime.timedelta(days)]. *)
Variable to_csv : list Twitter.tweet_data -> string.
Variable json_dump : list Twitter.tweet_data -> string.
Variable now : string.
Variable days_before : string -> Z -> string.

(** [main], given the parsed arguments.  [search_tweets] never runs out
    of the fuel it gives its loop, so the last branch is never taken. *)
Definition main (a : args) : App unit :=
  (count <- (if (arg_count a >? 100)%Z
             then say BannerCountWarning;; app_ret 100%Z
             else app_ret (arg_count a));;
   let days_back := Z.min (arg_days a) 7 in
   let end_time := now in
   let start_time := days_before end_time days_back in
   say (BannerSearchingTweets (arg_query a));;
   found <- lift (Twitter.search_tweets (arg_query a) count
                    (Some start_time) (Some end_time));;
   match found with
   | Some tweets =>
       say (BannerRetrieved (length tweets));;
       match arg_format a with
       | Csv => lift (Twitter.save_to_csv Twitter.tweet_data to_csv tweets
                        (arg_output a))
       | Json => lift (Twitter.save_to_json Twitter.tweet_data json_dump tweets
                         (arg_output a))
       end
   | None => app_ret tt
   end)%app.

End Main.

End TwitterApp.

(** * Specification vocabulary *)

(** The world [w] after the events [evs] have been added to its log. *)
Definition add_log (evs : list event) (w : world) : world :=
  World (network w) (requests w) (twitter w) (api_calls w)
        (entropy w) (draws w) (log w ++ evs) (files w).

(** The world [w] after [gets] more HTTP requests, [calls] more API
    calls, [rands] more random draws and the events [evs]. *)
Definition advance (gets calls rands : nat) (evs : list event) (w : world) : world :=
  World (network w) (gets + requests w) (twitter w) (calls + api_calls w)
        (entropy w) (rands + draws w) (log w ++ evs) (files w).

(** The events a computation added to the log when it took [w] to [w']. *)
Definition emitted (w w' : world) : list event :=
  drop (length (log w)) (log w').

(** [random.random()] returns a value in the half-open interval [0, 1). *)
Definition unit_interval (r : nat -> Q) : Prop :=
  forall n, (0 <= r n)%Q /\ (r n < 1)%Q.

(** Two worlds answer alike: the n-th HTTP request and the n-th API call
    get the same outcome in both, and both have made as many of each.
    Their random sources, logs and files may differ. *)
Definition same_responses (w1 w2 : world) : Prop :=
  network w1 = network w2 /\ requests w1 = requests w2 /\
  twitter w1 = twitter w2 /\ api_calls w1 = api_calls w2.

Module LeakIXSpec.

Import Bs4 LeakIX.

(** The element's first anchor exists and has no [href] attribute: the
    one shape of element on which the dictionary display raises. *)
Definition anchor_without_href (e : node) : bool :=
  match select_one e a_ with
  | Some a => match getitem a "href" with Some _ => false | None => true end
  | None => false
  end.

(** The body of a reply that [get_page] accepts: a response with status
    code 200. *)
Definition body_of (r : Requests.reply) : option string :=
  match r with
  | Requests.Response status_code body =>
      if (status_code =? 200)%Z then Some body else None
  | Requests.RequestException _ => None
  end.

(** What [get_page] prints about a reply it does not accept. *)
Definition failure_notice (full_url : string) (r : Requests.reply) : message :=
  match r with
  | Requests.Response status_code _ => MsgFailedStatus full_url status_code
  | Requests.RequestException e => MsgErrorFetching full_url e
  end.

(** The value [random.uniform(a, b)] takes in the world [w]. *)
Definition uniform_in (w : world) (a b : Q) : Q :=
  (a + (b - a) * entropy w (draws w))%Q.

(** The backoff of [get_page] after a failed attempt: nothing after the
    last attempt. *)
Definition backs_off (retry_count attempt : nat) : bool :=
  (attempt <? retry_count - 1)%nat.

Definition backoff (retry_count attempt : nat) (w : world) : world :=
  if backs_off retry_count attempt then
    let sleep_time := backoff_delay attempt (uniform_in w 0 1) in
    advance 0 0 1 [EPrint (MsgRetrying sleep_time); ESleep sleep_time] w
  else w.

(** The politeness pause of [scrape_search_results] after a page: nothing
    after the last page. *)
Definition pause (pages page : nat) (w : world) : world :=
  if (page <? pages)%nat then
    let sleep_time := uniform_in w 2 5 in
    advance 0 0 1 [EPrint (MsgWaiting sleep_time); ESleep sleep_time] w
  else w.

Definition is_sleep (e : event) : bool :=
  match e with ESleep _ => true | _ => false end.

Section Records.

Variable urljoin : string -> string -> string.
Variable base_url : string.

(** The link entry of an element that does not raise: [None] when there
    is no anchor. *)
Definition link_of (e : node) : option string :=
  match select_one e a_ with
  | Some a => urljoin base_url <$> getitem a "href"
  | None => None
  end.

(** The record of a card, each absent part replaced by its placeholder. *)
Definition card_record (card : node) : service_data :=
  ServiceData (text_or_NA (select_one card h3_card_title))
              (text_or_NA (select_one card p_card_text))
              (link_of card)
              (text_or_NA (select_one card span_date)).

(** The record of a search result, each absent part replaced by its
    placeholder. *)
Definition item_record (item : node) : result_data :=
  ResultData (text_or_NA (select_one item h4_result_title))
             (text_or_NA (select_one item div_result_description))
             (link_of item)
             (_extract_details item).

End Records.

(** The elements that yield a record, and those that are skipped. *)
Definition kept (elements : list node) : list node :=
  List.filter (fun e => negb (anchor_without_href e)) elements.

Definition skipped (elements : list node) : list node :=
  List.filter anchor_without_href elements.

(** The key and value texts of a detail item that has both elements. *)
Definition detail_pair (detail : node) : option (string * string) :=
  match select_one detail span_detail_key, select_one detail span_detail_value with
  | Some key_elem, Some value_elem =>
      Some (Str.strip (text key_elem), Str.strip (text value_elem))
  | _, _ => None
  end.

Definition is_print (e : event) : bool :=
  match e with EPrint _ => true | _ => false end.

Section Politeness.

Variable urljoin : string -> string -> string.
Variable BeautifulSoup : string -> node.
Variable base_url : string.

(** The events of one page pull: what one call of [get_page] for [url],
    with its three attempts at most, adds to the log. *)
Definition pull_of (url : string) (evs : list event) : Prop :=
  exists w : world,
    evs = emitted w (get_page urljoin BeautifulSoup base_url url 3 w).2.

(** The logs in which every page pull after the first comes right after
    a politeness delay: a log that starts with the pull of page [page]
    is that pull followed by prints only, or that pull, the notices of
    skipped elements, a delay of 2 to 5 seconds announced and slept, and
    a log of the same kind for the next page. *)
Inductive polite (query : string) : nat -> list event -> Prop :=
| polite_last (page : nat) (pull tail : list event) :
    pull_of (search_url query page) pull ->
    Forall (fun e => is_print e = true) tail ->
    polite query page (pull ++ tail)
| polite_next (page : nat) (pull notices : list event) (d : Q)
    (rest : list event) :
    pull_of (search_url query page) pull ->
    Forall (fun e => e = EPrint (MsgErrorParsingItem "href")) notices ->
    (2 <= d)%Q -> (d <= 5)%Q ->
    polite query (S page) rest ->
    polite query page
      (pull ++ notices ++ [EPrint (MsgWaiting d); ESleep d] ++ rest).

End Politeness.

End LeakIXSpec.

Module TwitterSpec.

(** The events of one rate-limit signal that is waited out: the request,
    the notice, and the sleep of [retry_delay] seconds. *)
Definition wait_then (request : Tweepy.SearchRequest) (retry_delay : Z)
  : list event :=
  [ESearch request; EPrint (MsgRateLimit retry_delay);
   ESleep (inject_Z retry_delay)].

(** [k] signals waited out in a row, the delay starting at [retry_delay]
    and doubling each time. *)
Definition waits (request : Tweepy.SearchRequest) (retry_delay : Z) (k : nat)
  : list event :=
  flat_map (fun i => wait_then request (retry_delay * 2 ^ Z.of_nat i)%Z) (seq 0 k).

(** The next [k] API calls of the world, asked for [request], are all
    answered with a rate-limit signal. *)
Definition rate_limited (w : world) (request : Tweepy.SearchRequest) (k : nat)
  : Prop :=
  forall i, (i < k)%nat ->
            twitter w (i + api_calls w)%nat request = Tweepy.TooManyRequests.

End TwitterSpec.

Module RunSpec.

Import LeakIX LeakIXSpec.

(** The sleeps, the requests and the politeness notices of a log. *)
Definition sleeps (evs : list event) : list event := List.filter is_sleep evs.

Definition is_get (e : event) : bool :=
  match e with EGet _ => true | _ => false end.

Definition gets (evs : list event) : list event := List.filter is_get evs.

Definition is_waiting (e : event) : bool :=
  match e with EPrint (MsgWaiting _) => true | _ => false end.

Definition is_search (e : event) : bool :=
  match e with ESearch _ => true | _ => false end.

(** The seconds slept in a log, all sleeps added up. *)
Fixpoint slept (evs : list event) : Q :=
  match evs with
  | [] => 0
  | ESleep seconds :: rest => seconds + slept rest
  | _ :: rest => slept rest
  end.

(** The sleeps of [k] backoffs in a row that start at [attempt] in the
    world [w]: the i-th one follows attempt [attempt + i] and uses the
    i-th next random number. *)
Definition backoff_sleeps (w : world) (attempt k : nat) : list event :=
  map (fun i => ESleep (backoff_delay (attempt + i)
                          (0 + (1 - 0) * entropy w (i + draws w)%nat)))
      (seq 0 k).

(** The next [k] replies of the network to requests for [u] are all
    failures: a status other than 200 or a transport error. *)
Definition fails (w : world) (u : string) (k : nat) : Prop :=
  forall i, (i < k)%nat -> body_of (network w (i + requests w)%nat u) = None.

(** The network serves the pages [first + 1] to [first + n] of a query
    at the first attempt each: the i-th next request, when it asks for
    page [first + i + 1], is answered 200 with the body [bodies (first +
    i)], in which the parser finds at least one search result. *)
Definition serves (urljoin : string -> string -> string)
  (BeautifulSoup : string -> Bs4.node) (base_url : string)
  (w : world) (query : string) (first n : nat) (bodies : nat -> string) : Prop :=
  forall i, (i < n)%nat ->
    body_of (network w (i + requests w)%nat
               (urljoin base_url (search_url query (S (first + i))))) =
      Some (bodies (first + i)%nat) /\
    Bs4.select (BeautifulSoup (bodies (first + i)%nat)) div_search_result <> [].

(** The key and value texts of a table row of a service page that has
    two cells at least. *)
Definition row_pair (row : Bs4.node) : option (string * string) :=
  match Bs4.select row LeakIXApp.td with
  | cell0 :: cell1 :: _ =>
      Some (Str.strip (Bs4.text cell0), Str.strip (Bs4.text cell1))
  | _ => None
  end.

(** The pairs of the rows of the first info table of a service page. *)
Definition table_pairs (soup : Bs4.node) : list (string * string) :=
  match Bs4.select_one soup LeakIXApp.table_info_table with
  | Some info_table => omap row_pair (Bs4.select info_table LeakIXApp.tr)
  | None => []
  end.

(** The tweet dictionaries an API outcome yields: one per tweet of a
    response, none for a response without data or for an error. *)
Definition harvest (o : Tweepy.outcome) : list Twitter.tweet_data :=
  match o with
  | Tweepy.Ok response =>
      map (Twitter.tweet_data_of (Twitter.users_of response))
          (default [] (Tweepy.data response))
  | _ => []
  end.

(** The author entries made from an included user. *)
Definition author_of (user : Tweepy.User) : Twitter.author_data :=
  Twitter.AuthorData (Tweepy.user_id user) (Tweepy.name user)
    (Tweepy.username user) (Tweepy.location user) (Tweepy.verified user).

(** The included users of a response, none without the key ['users']. *)
Definition included (response : Tweepy.Response) : list Tweepy.User :=
  default [] (Tweepy.includes_users response).

(** What the two command lines write for [data]: its text in the
    chosen format. *)
Definition rendered {A : Type} (to_csv json_dump : list A -> string)
  (f : format) (data : list A) : string :=
  match f with
  | Csv => to_csv data
  | Json => json_dump data
  end.

End RunSpec.

(** * Example documents and worlds *)

Module Examples.

Import Bs4 LeakIX.

Definition tag (name : string) (classes : list string) (contents : list node) : node :=
  Tag name classes ∅ contents.

Definition anchor (href : string) : node := Tag "a" [] {["href" := href]} [].

Definition bare_anchor : node := Tag "a" [] ∅ [].

(** A urljoin for a base without a path and references that start with a
    slash. *)
Definition join (base reference : string) : string := base +:+ reference.

Definition site : string := "https://leakix.net".





(** The same for search results. *)
Definition item_one : node :=
  tag "div" ["search-result"]
    [tag "h4" ["result-title"] [NavigableString "One"]; anchor "/one"].


Definition item_three : node :=
  tag "div" ["search-result"]
    [tag "h4" ["result-title"] [NavigableString "Three"]; anchor "/three"].

Definition item_dangling : node :=
  tag "div" ["search-result"]
    [tag "h4" ["result-title"] [NavigableString "Two"]; bare_anchor].

(** A detail item with a key element and a value element, and a result
    with two such items under the same key. *)
Definition detail (key value : string) : node :=
  tag "div" ["detail-item"]
    [tag "span" ["detail-key"] [NavigableString key];
     tag "span" ["detail-value"] [NavigableString value]].

Definition item_two_ports : node :=
  tag "div" ["search-result"] [detail "port" "80"; detail "port" "443"].

(** A parser that finds no search result in the body ["empty"] and the
    same two search results in every other body. *)
Definition document : node :=
  tag "[document]" [] [tag "html" [] [item_one; item_three]].

Definition parse (body : string) : node :=
  if String.eqb body "empty" then tag "[document]" [] [] else document.

(** The page of a service: a title, and an info table with a row for
    the port, a row keyed ["url"] and a row with one cell only. *)
Definition cell (content : string) : node := tag "td" [] [NavigableString content].

Definition service_page : node :=
  tag "[document]" []
    [tag "h1" ["service-title"] [NavigableString " Redis "];
     tag "table" ["info-table"]
       [tag "tr" [] [cell "port"; cell "6379"];
        tag "tr" [] [cell "url"; cell "redis://10.0.0.1"];
        tag "tr" [] [cell "lonely"]]].

Definition parse_service (body : string) : node := service_page.

(** A world in which the first request is answered with a page of
    results and every later one with an empty page. *)
Definition one_page_of_results (r : Q) : world :=
  World (fun n _ => match n with
                    | O => Requests.Response 200 "page"
                    | S _ => Requests.Response 200 "empty"
                    end) 0
        (fun _ _ => Tweepy.TooManyRequests) 0
        (fun _ => r) 0 [] ∅.

(** A world in which the first request is answered with a page of
    results and every later one [503]. *)
Definition one_page_then_down (r : Q) : world :=
  World (fun n _ => match n with
                    | O => Requests.Response 200 "page"
                    | S _ => Requests.Response 503 ""
                    end) 0
        (fun _ _ => Tweepy.TooManyRequests) 0
        (fun _ => r) 0 [] ∅.

(** A world in which every request is answered [503] and every random
    draw is [r]. *)
Definition down (r : Q) : world :=
  World (fun _ _ => Requests.Response 503 "") 0
        (fun _ _ => Tweepy.TooManyRequests) 0
        (fun _ => r) 0 [] ∅.

(** A world in which the first request is answered [503], the second
    one times out and every later one is answered with a page of
    results. *)
Definition flaky (r : Q) : world :=
  World (fun n _ => match n with
                    | 0%nat => Requests.Response 503 ""
                    | 1%nat => Requests.RequestException "timed out"
                    | _ => Requests.Response 200 "page"
                    end) 0
        (fun _ _ => Tweepy.TooManyRequests) 0
        (fun _ => r) 0 [] ∅.

(** A world in which every request is answered [200] with the body
    ["page"], every API call is rate limited and every random draw is
    [r]. *)
Definition calm (r : Q) : world :=
  World (fun _ _ => Requests.Response 200 "page") 0
        (fun _ _ => Tweepy.TooManyRequests) 0
        (fun _ => r) 0 [] ∅.

End Examples.

(** * Properties *)

Import Bs4 LeakIX LeakIXSpec TwitterSpec.

(** ** The world monad *)

Lemma bind_run {A B : Type} (m : M A) (k : A -> M B) (w : world) :
  bind m k w = k (m w).1 (m w).2.
Proof. unfold bind. destruct (m w); reflexivity. Qed.

Lemma add_log_nil (w : world) : add_log [] w = w.
Proof. destruct w; unfold add_log; simpl. by rewrite app_nil_r. Qed.

Lemma add_log_app (evs1 evs2 : list event) (w : world) :
  add_log evs2 (add_log evs1 w) = add_log (evs1 ++ evs2) w.
Proof. unfold add_log; simpl. by rewrite app_assoc. Qed.

Lemma emit_run (e : event) (w : world) : emit e w = (tt, add_log [e] w).
Proof. reflexivity. Qed.

Lemma print_run (m : message) (w : world) :
  print m w = (tt, add_log [EPrint m] w).
Proof. reflexivity. Qed.

Lemma emitted_add_log (evs : list event) (w : world) :
  emitted w (add_log evs w) = evs.
Proof. unfold emitted, add_log; simpl. by rewrite drop_app_length. Qed.

(** ** Running the primitives *)

Lemma advance_0 (w : world) : advance 0 0 0 [] w = w.
Proof. destruct w; unfold advance; simpl. by rewrite app_nil_r. Qed.

Lemma advance_advance (g c r g' c' r' : nat) (evs evs' : list event) (w : world) :
  advance g' c' r' evs' (advance g c r evs w) =
  advance (g' + g) (c' + c) (r' + r) (evs ++ evs') w.
Proof.
  unfold advance; simpl. rewrite <- !app_assoc, <- !Nat.add_assoc. reflexivity.
Qed.

Lemma add_log_advance (evs : list event) (w : world) :
  add_log evs w = advance 0 0 0 evs w.
Proof. reflexivity. Qed.

Lemma emitted_advance (g c r : nat) (evs : list event) (w : world) :
  emitted w (advance g c r evs w) = evs.
Proof. unfold emitted, advance; simpl. by rewrite drop_app_length. Qed.

Lemma ret_run {A : Type} (a : A) (w : world) : ret a w = (a, w).
Proof. reflexivity. Qed.

Lemma print_advance (m : message) (w : world) :
  print m w = (tt, advance 0 0 0 [EPrint m] w).
Proof. reflexivity. Qed.

Lemma time_sleep_advance (d : Q) (w : world) :
  time_sleep d w = (tt, advance 0 0 0 [ESleep d] w).
Proof. reflexivity. Qed.

Lemma session_get_advance (u : string) (w : world) :
  session_get u w = (network w (requests w) u, advance 1 0 0 [EGet u] w).
Proof. reflexivity. Qed.

Lemma search_recent_tweets_advance (r : Tweepy.SearchRequest) (w : world) :
  search_recent_tweets r w = (twitter w (api_calls w) r, advance 0 1 0 [ESearch r] w).
Proof. reflexivity. Qed.

Lemma random_uniform_advance (a b : Q) (w : world) :
  random_uniform a b w =
  ((a + (b - a) * entropy w (draws w))%Q, advance 0 0 1 [] w).
Proof. destruct w; unfold random_uniform, advance; simpl. by rewrite app_nil_r. Qed.

Lemma network_advance g c r evs w : network (advance g c r evs w) = network w.
Proof. reflexivity. Qed.

Lemma requests_advance g c r evs w :
  requests (advance g c r evs w) = (g + requests w)%nat.
Proof. reflexivity. Qed.

Lemma twitter_advance g c r evs w : twitter (advance g c r evs w) = twitter w.
Proof. reflexivity. Qed.

Lemma api_calls_advance g c r evs w :
  api_calls (advance g c r evs w) = (c + api_calls w)%nat.
Proof. reflexivity. Qed.

Lemma entropy_advance g c r evs w : entropy (advance g c r evs w) = entropy w.
Proof. reflexivity. Qed.

Lemma draws_advance g c r evs w :
  draws (advance g c r evs w) = (r + draws w)%nat.
Proof. reflexivity. Qed.

Lemma log_advance g c r evs w : log (advance g c r evs w) = log w ++ evs.
Proof. reflexivity. Qed.

Lemma files_advance g c r evs w : files (advance g c r evs w) = files w.
Proof. reflexivity. Qed.

Ltac run :=
  repeat first
    [ rewrite bind_run
    | rewrite ret_run
    | rewrite print_advance
    | rewrite time_sleep_advance
    | rewrite session_get_advance
    | rewrite search_recent_tweets_advance
    | rewrite random_uniform_advance
    | rewrite advance_advance
    | rewrite network_advance
    | rewrite requests_advance
    | rewrite twitter_advance
    | rewrite api_calls_advance
    | rewrite entropy_advance
    | rewrite draws_advance
    | progress cbn [fst snd Nat.add app] ].

(** ** Saving *)

(** With something to save, the file is written: its former content, if
    any, is replaced by the serialised list. *)
Lemma save_to_json_writes (A : Type) (json_dump : list A -> string)
  (record : A) (data : list A) (filename : string) (w : world) :
  files (LeakIX.save_to_json A json_dump (record :: data) filename w).2 =
  <[filename := json_dump (record :: data)]> (files w).
Proof. reflexivity. Qed.

Lemma save_to_csv_writes (A : Type) (to_csv : list A -> string)
  (record : A) (data : list A) (filename : string) (w : world) :
  files (LeakIX.save_to_csv A to_csv (record :: data) filename w).2 =
  <[filename := to_csv (record :: data)]> (files w).
Proof. reflexivity. Qed.

(** ** Extraction: which elements yield a record *)

Section Extraction.

Import Bs4 LeakIX LeakIXSpec.

Variable urljoin : string -> string -> string.
Variable base_url : string.

Lemma service_data_of_spec (card : node) :
  service_data_of urljoin base_url card =
  if anchor_without_href card then KeyError "href"
  else Value (card_record urljoin base_url card).
Proof.
  unfold service_data_of, anchor_without_href, card_record, link_of, href_or_None.
  destruct (select_one card a_) as [a|]; [|reflexivity].
  destruct (getitem a "href"); reflexivity.
Qed.

Lemma result_data_of_spec (item : node) :
  result_data_of urljoin base_url item =
  if anchor_without_href item then KeyError "href"
  else Value (item_record urljoin base_url item).
Proof.
  unfold result_data_of, anchor_without_href, item_record, link_of, href_or_None.
  destruct (select_one item a_) as [a|]; [|reflexivity].
  destruct (getitem a "href"); reflexivity.
Qed.

Lemma parse_cards_run (cards : list node) (results : list service_data) (w : world) :
  parse_cards urljoin base_url cards results w =
  (results ++ map (card_record urljoin base_url) (kept cards),
   add_log (map (fun _ => EPrint (MsgErrorParsingCard "href")) (skipped cards)) w).
Proof.
  revert results w. induction cards as [|card cards IH]; intros results w.
  - simpl. by rewrite app_nil_r, add_log_nil.
  - simpl. rewrite service_data_of_spec. unfold kept, skipped in *. simpl.
    destruct (anchor_without_href card); simpl.
    + rewrite bind_run, print_run. simpl. rewrite IH, add_log_app. reflexivity.
    + rewrite IH. by rewrite <- app_assoc.
Qed.

Lemma parse_items_run (items : list node) (all_results : list result_data) (w : world) :
  parse_items urljoin base_url items all_results w =
  (all_results ++ map (item_record urljoin base_url) (kept items),
   add_log (map (fun _ => EPrint (MsgErrorParsingItem "href")) (skipped items)) w).
Proof.
  revert all_results w. induction items as [|item items IH]; intros all_results w.
  - simpl. by rewrite app_nil_r, add_log_nil.
  - simpl. rewrite result_data_of_spec. unfold kept, skipped in *. simpl.
    destruct (anchor_without_href item); simpl.
    + rewrite bind_run, print_run. simpl. rewrite IH, add_log_app. reflexivity.
    + rewrite IH. by rewrite <- app_assoc.
Qed.

End Extraction.

(** ** The details dictionary *)

Lemma extract_detail_items_fold (items : list node) (details : gmap string string) :
  extract_detail_items items details =
  foldl (fun m kv => <[kv.1 := kv.2]> m) details (omap detail_pair items).
Proof.
  revert details. induction items as [|detail items IH]; intros details; [reflexivity|].
  cbn [extract_detail_items].
  change (omap detail_pair (detail :: items)) with
    (match detail_pair detail with
     | Some kv => kv :: omap detail_pair items
     | None => omap detail_pair items
     end).
  unfold detail_pair at 1.
  destruct (select_one detail span_detail_key) as [key_elem|];
    [destruct (select_one detail span_detail_value) as [value_elem|]|];
    simpl; apply IH.
Qed.

(** A left fold of insertions: the last pair under a key decides. *)
Lemma lookup_foldl_insert (pairs : list (string * string)) (m : gmap string string)
  (k v : string) :
  (foldl (fun m kv => <[kv.1 := kv.2]> m) m pairs) !! k = Some v <->
  (exists before after, pairs = before ++ (k, v) :: after /\ k ∉ after.*1) \/
  ((k ∉ pairs.*1) /\ m !! k = Some v).
Proof.
  revert m. induction pairs as [|[k' v'] pairs IH]; intros m; simpl.
  - split.
    + intros H. right. split; [apply not_elem_of_nil | done].
    + intros [(before & after & E & _)|[_ H]]; [by destruct before | done].
  - rewrite IH. split.
    + intros [(before & after & -> & Hk)|[Hk Hm]].
      * left. exists ((k', v') :: before), after. done.
      * destruct (decide (k' = k)) as [->|Hne].
        -- rewrite lookup_insert_eq in Hm. injection Hm as ?; subst.
           left. exists [], pairs. done.
        -- rewrite lookup_insert_ne in Hm by done.
           right. split; [|done]. rewrite not_elem_of_cons. done.
    + intros [(before & after & E & Hk)|[Hk Hm]].
      * destruct before as [|p before]; simpl in E.
        -- injection E as ? ? ?; subst. right. split; [done|].
           by rewrite lookup_insert_eq.
        -- injection E as ? ?; subst. left. by exists before, after.
      * rewrite not_elem_of_cons in Hk. destruct Hk as [Hne Hk].
        right. split; [done|]. by rewrite lookup_insert_ne.
Qed.

(** A key that occurs in a list of pairs has a last occurrence. *)
Lemma last_binding (pairs : list (string * string)) (key : string) :
  key ∈ pairs.*1 ->
  exists value before after,
    pairs = before ++ (key, value) :: after /\ key ∉ after.*1.
Proof.
  induction pairs as [|[k v] pairs IH]; intros Hin.
  - by apply elem_of_nil in Hin.
  - destruct (decide (key ∈ pairs.*1)) as [Hlater|Hlast].
    + destruct (IH Hlater) as (value & before & after & -> & Hafter).
      by exists value, ((k, v) :: before), after.
    + cbn in Hin. apply elem_of_cons in Hin as [->|Hin]; [|done].
      by exists v, [], pairs.
Qed.

(** Splitting the membership of an event in a log made of pieces. *)
Ltac split_elem H :=
  repeat first [ rewrite elem_of_app in H | rewrite elem_of_cons in H
               | rewrite elem_of_nil in H ];
  destruct_or?.

(** ** Fetching a page *)

Section Fetching.

Variable urljoin : string -> string -> string.
Variable BeautifulSoup : string -> node.
Variable base_url : string.

Local Abbreviation get_page_attempts := (LeakIX.get_page_attempts BeautifulSoup).
Local Abbreviation get_page := (LeakIX.get_page urljoin BeautifulSoup base_url).

(** One iteration of the loop of [get_page]. *)
Lemma get_page_attempts_step (u : string) (retry_count attempt remaining : nat)
  (w : world) :
  get_page_attempts u retry_count attempt (S remaining) w =
  let r := network w (requests w) u in
  match body_of r with
  | Some body =>
      (Some (BeautifulSoup body), advance 1 0 0 [EPrint (MsgFetching u); EGet u] w)
  | None =>
      get_page_attempts u retry_count (S attempt) remaining
        (backoff retry_count attempt
           (advance 1 0 0
              [EPrint (MsgFetching u); EGet u; EPrint (failure_notice u r)] w))
  end.
Proof.
  cbn [LeakIX.get_page_attempts]. run. cbv zeta.
  unfold backoff, backs_off, body_of, failure_notice.
  destruct (network w (requests w) u) as [status_code body|e].
  - destruct (status_code =? 200)%Z; run; [reflexivity|].
    destruct (attempt <? retry_count - 1)%nat; run; reflexivity.
  - run. destruct (attempt <? retry_count - 1)%nat; run; reflexivity.
Qed.

Lemma entropy_backoff (retry_count attempt : nat) (w : world) :
  entropy (backoff retry_count attempt w) = entropy w.
Proof. unfold backoff. by destruct (backs_off retry_count attempt). Qed.

(** Where [get_page] leaves the world: only requests for its own URL,
    and only sleeps that are backoff delays of attempts which are not
    the last one. *)
Lemma get_page_attempts_shape (u : string) (retry_count remaining attempt : nat)
  (w : world) :
  exists g r evs,
    (get_page_attempts u retry_count attempt remaining w).2 = advance g 0 r evs w /\
    (forall u', EGet u' ∈ evs -> u' = u) /\
    (forall d, ESleep d ∈ evs ->
       exists a n, (S a < retry_count)%nat /\
                   d = backoff_delay a (0 + (1 - 0) * entropy w n)%Q).
Proof.
  revert attempt w. induction remaining as [|remaining IH]; intros attempt w.
  - exists 0%nat, 0%nat, []. cbn. rewrite advance_0.
    split; [done|]. split; intros ? H; by apply elem_of_nil in H.
  - rewrite get_page_attempts_step. cbv zeta.
    destruct (body_of (network w (requests w) u)) as [body|].
    + exists 1%nat, 0%nat, [EPrint (MsgFetching u); EGet u]. cbn [snd].
      split; [done|].
      split; intros ? H; split_elem H; try done. by injection H.
    + match goal with |- context [backoff ?rc ?a ?w0] =>
        destruct (IH (S attempt) (backoff rc a w0))
          as (g & r & evs & Hrun & Hget & Hsleep)
      end.
      rewrite Hrun. clear Hrun. rewrite entropy_backoff, entropy_advance in Hsleep.
      unfold backoff. destruct (backs_off retry_count attempt) eqn:Hb.
      * cbv zeta. rewrite !advance_advance. do 3 eexists. split; [reflexivity|].
        unfold backs_off in Hb. apply Nat.ltb_lt in Hb.
        split; intros ? H; split_elem H; try done; try (by injection H).
        -- by apply Hget.
        -- injection H as ->. exists attempt, (draws w). split; [lia|]. reflexivity.
        -- by apply Hsleep.
      * do 3 eexists. rewrite advance_advance. split; [reflexivity|].
        split; intros ? H; split_elem H; try done; try (by injection H).
        -- by apply Hget.
        -- by apply Hsleep.
Qed.

End Fetching.

Lemma unit_interval_const (r : Q) :
  (0 <= r)%Q -> (r < 1)%Q -> unit_interval (fun _ => r).
Proof. intros H0 H1 n. by split. Qed.


(** ** Paging through search results *)

Section Paging.

Variable urljoin : string -> string -> string.
Variable BeautifulSoup : string -> node.
Variable base_url : string.

Local Abbreviation get_page := (LeakIX.get_page urljoin BeautifulSoup base_url).
Local Abbreviation scrape_pages :=
  (LeakIX.scrape_pages urljoin BeautifulSoup base_url).
Local Abbreviation scrape_search_results :=
  (LeakIX.scrape_search_results urljoin BeautifulSoup base_url).
Local Abbreviation item_record := (LeakIXSpec.item_record urljoin base_url).

(** One iteration of the loop of [scrape_search_results]. *)
Lemma scrape_pages_step (query : string) (pages page remaining : nat)
  (all_results : list result_data) (w : world) :
  scrape_pages query pages page (S remaining) all_results w =
  let got := get_page (search_url query page) 3 w in
  match got.1 with
  | None => (all_results, got.2)
  | Some soup =>
      match select soup div_search_result with
      | [] => (all_results, add_log [EPrint (MsgNoResults page)] got.2)
      | (_ :: _) as result_items =>
          scrape_pages query pages (S page) remaining
            (all_results ++ map item_record (kept result_items))
            (pause pages page
               (add_log (map (fun _ => EPrint (MsgErrorParsingItem "href"))
                           (skipped result_items)) got.2))
      end
  end.
Proof.
  cbn [LeakIX.scrape_pages]. rewrite bind_run. cbv zeta.
  destruct (get_page (search_url query page) 3 w).1 as [soup|]; [|reflexivity].
  destruct (select soup div_search_result) as [|item items] eqn:Hitems;
    [reflexivity|].
  rewrite bind_run, parse_items_run. cbn [fst snd].
  rewrite bind_run. unfold pause.
  destruct (page <? pages)%nat; run; reflexivity.
Qed.

Lemma get_page_shape (url : string) (retry_count : nat) (w : world) :
  exists g r evs,
    (get_page url retry_count w).2 = advance g 0 r evs w /\
    (forall u', EGet u' ∈ evs -> u' = urljoin base_url url).
Proof.
  unfold LeakIX.get_page.
  destruct (get_page_attempts_shape BeautifulSoup (urljoin base_url url)
              retry_count retry_count 0 w) as (g & r & evs & Hrun & Hget & _).
  by exists g, r, evs.
Qed.

Lemma entropy_pause (pages page : nat) (w : world) :
  entropy (pause pages page w) = entropy w.
Proof. unfold pause. by destruct (page <? pages)%nat. Qed.

(** The loop never drops a record it has collected. *)
Lemma scrape_pages_keeps (query : string) (pages remaining page : nat)
  (all_results : list result_data) (w : world) :
  exists more,
    (scrape_pages query pages page remaining all_results w).1 = all_results ++ more.
Proof.
  revert page all_results w.
  induction remaining as [|remaining IH]; intros page all_results w.
  - exists []. cbn. by rewrite app_nil_r.
  - rewrite scrape_pages_step. cbv zeta.
    destruct (get_page (search_url query page) 3 w).1 as [soup|];
      [|exists []; cbn; by rewrite app_nil_r].
    destruct (select soup div_search_result) as [|item items];
      [exists []; cbn; by rewrite app_nil_r|].
    match goal with |- context [scrape_pages _ _ _ _ (_ ++ ?new) ?w'] =>
      destruct (IH (S page) (all_results ++ new) w') as [more Hmore];
      exists (new ++ more)
    end.
    rewrite Hmore. by rewrite <- app_assoc.
Qed.

(** Every run of the loop that starts at [page] with all the remaining
    pages to go leaves a polite log. *)
Lemma scrape_pages_polite (query : string) (pages remaining page : nat)
  (all_results : list result_data) (w : world) :
  unit_interval (entropy w) ->
  (page + remaining = pages)%nat ->
  exists g r evs,
    (scrape_pages query pages page (S remaining) all_results w).2 =
      advance g 0 r evs w /\
    polite urljoin BeautifulSoup base_url query page evs.
Proof.
  revert page all_results w.
  induction remaining as [|remaining IH]; intros page all_results w Hunit Hpages;
    rewrite scrape_pages_step; cbv zeta;
    destruct (get_page_shape (search_url query page) 3 w)
      as (g & r & evs & Hrun & _);
    assert (Hpull : pull_of urljoin BeautifulSoup base_url (search_url query page) evs)
      by (exists w; by rewrite Hrun, emitted_advance);
    rewrite Hrun;
    (destruct (get_page (search_url query page) 3 w).1 as [soup|];
      [|exists g, r, evs; split; [done|];
        rewrite <- (app_nil_r evs); by apply polite_last]);
    (destruct (select soup div_search_result) as [|item items];
      [exists g, r, (evs ++ [EPrint (MsgNoResults page)]); split;
        [by rewrite add_log_advance, advance_advance
        |apply polite_last; [done|by repeat constructor]]|]);
    set (notices := map (fun _ => EPrint (MsgErrorParsingItem "href"))
                      (skipped (item :: items)));
    assert (Hnotices : Forall (fun e => e = EPrint (MsgErrorParsingItem "href")) notices)
      by (apply Forall_forall; intros e He; apply list_elem_of_fmap in He;
          by destruct He as (? & -> & _)).
  - (* the last page: no pause *)
    unfold pause. replace (page <? pages)%nat with false
      by (symmetry; apply Nat.ltb_ge; lia).
    cbn [LeakIX.scrape_pages]. rewrite ret_run. cbn [snd].
    exists g, r, (evs ++ notices). split.
    + by rewrite add_log_advance, advance_advance.
    + apply polite_last; [done|].
      eapply Forall_impl; [exact Hnotices|]. by intros e ->.
  - (* a page before the last: the pause, then the next page *)
    unfold pause. replace (page <? pages)%nat with true
      by (symmetry; apply Nat.ltb_lt; lia).
    cbv zeta. rewrite add_log_advance, !advance_advance. cbn [Nat.add].
    match goal with |- context [scrape_pages _ _ _ _ ?acc ?w'] =>
      destruct (IH (S page) acc w') as (g' & r' & evs' & Hrun' & Hpolite)
    end; [done|lia|].
    rewrite Hrun', advance_advance.
    do 3 eexists. split; [reflexivity|].
    rewrite <- !app_assoc. apply polite_next; try done.
    + unfold uniform_in. destruct (Hunit (draws (advance g 0 r (evs ++ notices) w))).
      rewrite entropy_advance. lra.
    + unfold uniform_in. destruct (Hunit (draws (advance g 0 r (evs ++ notices) w))).
      rewrite entropy_advance. lra.
Qed.

End Paging.

Lemma search_url_inj (query : string) (page page' : nat) :
  search_url query page = search_url query page' -> page = page'.
Proof.
  unfold search_url. intros H.
  do 3 apply String.app_inj in H. by apply pretty_nat_inj in H.
Qed.

(** ** The retry loop of search_tweets *)

(** One iteration of the loop of [search_tweets]. *)
Lemma search_loop_step (fuel : nat) (request : Tweepy.SearchRequest)
  (retry_count : nat) (retry_delay : Z) (tweets : list Twitter.tweet_data)
  (w : world) :
  Twitter.search_loop (S fuel) request retry_count retry_delay tweets w =
  if (retry_count <=? Twitter.max_retries)%nat then
    match twitter w (api_calls w) request with
    | Tweepy.Ok response =>
        match Tweepy.data response with
        | None | Some [] =>
            (Some tweets,
             advance 0 1 0 [ESearch request; EPrint MsgNoTweetsFound] w)
        | Some ((_ :: _) as data) =>
            (Some (tweets ++
                   map (Twitter.tweet_data_of (Twitter.users_of response)) data),
             advance 0 1 0 [ESearch request] w)
        end
    | Tweepy.TooManyRequests =>
        if (retry_count <? Twitter.max_retries)%nat then
          Twitter.search_loop fuel request (S retry_count) (retry_delay * 2)%Z tweets
            (advance 0 1 0 (wait_then request retry_delay) w)
        else
          (Some tweets, advance 0 1 0 [ESearch request; EPrint MsgMaxRetries] w)
    | Tweepy.TweepyException e =>
        (Some tweets, advance 0 1 0 [ESearch request; EPrint (MsgError e)] w)
    end
  else (Some tweets, w).
Proof.
  cbn [Twitter.search_loop].
  destruct (retry_count <=? Twitter.max_retries)%nat; [|reflexivity].
  run. destruct (twitter w (api_calls w) request) as [response| |e].
  - destruct (Tweepy.data response) as [[|tweet data]|]; run; reflexivity.
  - destruct (retry_count <? Twitter.max_retries)%nat; run; reflexivity.
  - run. reflexivity.
Qed.

(** The loop ends within the fuel [search_tweets] gives it. *)
Lemma search_loop_total (fuel : nat) (request : Tweepy.SearchRequest)
  (retry_count : nat) (retry_delay : Z) (tweets : list Twitter.tweet_data)
  (w : world) :
  (0 < fuel)%nat -> (Twitter.max_retries + 1 < fuel + retry_count)%nat ->
  exists result,
    (Twitter.search_loop fuel request retry_count retry_delay tweets w).1 =
    Some result.
Proof.
  revert retry_count retry_delay w.
  induction fuel as [|fuel IH]; intros retry_count retry_delay w Hfuel Henough;
    [lia|].
  rewrite search_loop_step.
  destruct (retry_count <=? Twitter.max_retries)%nat; [|by eexists].
  destruct (twitter w (api_calls w) request) as [response| |e].
  - destruct (Tweepy.data response) as [[|tweet data]|]; by eexists.
  - destruct (retry_count <? Twitter.max_retries)%nat eqn:Hlt; [|by eexists].
    apply Nat.ltb_lt in Hlt. unfold Twitter.max_retries in *.
    apply IH; lia.
  - by eexists.
Qed.

(** The loop never drops a tweet it has collected. *)
Lemma search_loop_keeps (fuel : nat) (request : Tweepy.SearchRequest)
  (retry_count : nat) (retry_delay : Z) (tweets : list Twitter.tweet_data)
  (w : world) (result : list Twitter.tweet_data) :
  (Twitter.search_loop fuel request retry_count retry_delay tweets w).1 =
    Some result ->
  exists more, result = tweets ++ more.
Proof.
  revert retry_count retry_delay w.
  induction fuel as [|fuel IH]; intros retry_count retry_delay w; [done|].
  rewrite search_loop_step.
  assert (Hsame : Some tweets = Some result -> exists more, result = tweets ++ more).
  { intros [= <-]. exists []. by rewrite app_nil_r. }
  destruct (retry_count <=? Twitter.max_retries)%nat; [|exact Hsame].
  destruct (twitter w (api_calls w) request) as [response| |e]; [| |exact Hsame].
  - destruct (Tweepy.data response) as [[|tweet data]|]; try exact Hsame.
    intros [= <-]. by eexists.
  - destruct (retry_count <? Twitter.max_retries)%nat; [apply IH|exact Hsame].
Qed.

Lemma flat_map_seq_shift {A : Type} (f : nat -> list A) (start k : nat) :
  flat_map f (seq (S start) k) = flat_map (fun i => f (S i)) (seq start k).
Proof.
  revert start. induction k as [|k IH]; intros start; [reflexivity|].
  cbn [seq flat_map]. by rewrite IH.
Qed.

Lemma waits_succ (request : Tweepy.SearchRequest) (retry_delay : Z) (k : nat) :
  waits request retry_delay (S k) =
  wait_then request retry_delay ++ waits request (retry_delay * 2)%Z k.
Proof.
  unfold waits. cbn [seq flat_map]. rewrite flat_map_seq_shift. f_equal.
  - cbn [Z.of_nat]. by rewrite Z.pow_0_r, Z.mul_1_r.
  - apply flat_map_ext. intros i.
    rewrite Nat2Z.inj_succ, Z.pow_succ_r by lia. f_equal. lia.
Qed.

(** [k] rate-limit signals in a row, while the retry budget lasts, are
    each waited out and followed by a new iteration. *)
Lemma search_loop_waits (k fuel : nat) (request : Tweepy.SearchRequest)
  (retry_count : nat) (retry_delay : Z) (tweets : list Twitter.tweet_data)
  (w : world) :
  (retry_count + k <= Twitter.max_retries)%nat ->
  rate_limited w request k ->
  Twitter.search_loop (k + fuel) request retry_count retry_delay tweets w =
  Twitter.search_loop fuel request (retry_count + k)
    (retry_delay * 2 ^ Z.of_nat k)%Z tweets
    (advance 0 k 0 (waits request retry_delay k) w).
Proof.
  revert retry_count retry_delay w.
  induction k as [|k IH]; intros retry_count retry_delay w Hbudget Hlimited.
  - cbn [Nat.add waits seq flat_map]. rewrite advance_0, Nat.add_0_r.
    by rewrite Z.mul_1_r.
  - cbn [Nat.add]. rewrite search_loop_step.
    pose proof (Hlimited 0%nat ltac:(lia)) as H0. cbn [Nat.add] in H0. rewrite H0.
    replace (retry_count <=? Twitter.max_retries)%nat with true
      by (symmetry; apply Nat.leb_le; lia).
    replace (retry_count <? Twitter.max_retries)%nat with true
      by (symmetry; apply Nat.ltb_lt; lia).
    rewrite IH.
    + rewrite advance_advance, waits_succ.
      replace (S retry_count + k)%nat with (retry_count + S k)%nat by lia.
      replace (retry_delay * 2 * 2 ^ Z.of_nat k)%Z
        with (retry_delay * 2 ^ Z.of_nat (S k))%Z
        by (rewrite Nat2Z.inj_succ, Z.pow_succ_r by lia; lia).
      replace (0 + 0)%nat with 0%nat by lia.
      replace (k + 1)%nat with (S k) by lia.
      reflexivity.
    + lia.
    + intros i Hi. rewrite api_calls_advance.
      replace (i + (1 + api_calls w))%nat with (S i + api_calls w)%nat by lia.
      apply Hlimited. lia.
Qed.

(** Where the loop leaves the world. *)
Lemma search_loop_shape (fuel : nat) (request : Tweepy.SearchRequest)
  (retry_count : nat) (retry_delay : Z) (tweets : list Twitter.tweet_data)
  (w : world) :
  exists n evs,
    (Twitter.search_loop fuel request retry_count retry_delay tweets w).2 =
    advance 0 n 0 evs w.
Proof.
  revert retry_count retry_delay w.
  induction fuel as [|fuel IH]; intros retry_count retry_delay w.
  - exists 0%nat, []. cbn. by rewrite advance_0.
  - rewrite search_loop_step.
    destruct (retry_count <=? Twitter.max_retries)%nat;
      [|exists 0%nat, []; cbn; by rewrite advance_0].
    destruct (twitter w (api_calls w) request) as [response| |e].
    + destruct (Tweepy.data response) as [[|tweet data]|]; by do 2 eexists.
    + destruct (retry_count <? Twitter.max_retries)%nat; [|by do 2 eexists].
      match goal with |- context [Twitter.search_loop _ _ ?c ?d _ ?w'] =>
        destruct (IH c d w') as (n & evs & ->)
      end.
      rewrite advance_advance. by do 2 eexists.
    + by do 2 eexists.
Qed.

(** An iteration within the retry budget starts with a request. *)
Lemma search_loop_requests_first (fuel : nat) (request : Tweepy.SearchRequest)
  (retry_count : nat) (retry_delay : Z) (tweets : list Twitter.tweet_data)
  (w : world) :
  (retry_count <= Twitter.max_retries)%nat ->
  exists n rest,
    (Twitter.search_loop (S fuel) request retry_count retry_delay tweets w).2 =
    advance 0 (S n) 0 (ESearch request :: rest) w.
Proof.
  intros Hbudget. rewrite search_loop_step.
  replace (retry_count <=? Twitter.max_retries)%nat with true
    by (symmetry; by apply Nat.leb_le).
  destruct (twitter w (api_calls w) request) as [response| |e].
  - destruct (Tweepy.data response) as [[|tweet data]|]; by exists 0%nat; eexists.
  - destruct (retry_count <? Twitter.max_retries)%nat; [|by exists 0%nat; eexists].
    match goal with |- context [Twitter.search_loop _ _ ?c ?d _ ?w'] =>
      destruct (search_loop_shape fuel request c d tweets w') as (n & evs & ->)
    end.
    rewrite advance_advance. unfold wait_then. cbn [app].
    replace (n + 1)%nat with (S n) by lia. by do 2 eexists.
  - by exists 0%nat; eexists.
Qed.

(** ** Worlds that answer alike *)

Lemma same_responses_advance (g c r r' : nat) (evs evs' : list event)
  (w1 w2 : world) :
  same_responses w1 w2 ->
  same_responses (advance g c r evs w1) (advance g c r' evs' w2).
Proof.
  intros (Hnet & Hreq & Htw & Hcalls). unfold same_responses.
  rewrite !network_advance, !requests_advance, !twitter_advance, !api_calls_advance.
  by rewrite Hnet, Hreq, Htw, Hcalls.
Qed.

Lemma same_responses_add_log (evs evs' : list event) (w1 w2 : world) :
  same_responses w1 w2 -> same_responses (add_log evs w1) (add_log evs' w2).
Proof. apply (same_responses_advance 0 0 0 0). Qed.

Lemma same_responses_backoff (retry_count attempt : nat) (w1 w2 : world) :
  same_responses w1 w2 ->
  same_responses (backoff retry_count attempt w1) (backoff retry_count attempt w2).
Proof.
  intros H. unfold backoff.
  destruct (backs_off retry_count attempt); [|done].
  by apply same_responses_advance.
Qed.

Lemma same_responses_pause (pages page : nat) (w1 w2 : world) :
  same_responses w1 w2 ->
  same_responses (pause pages page w1) (pause pages page w2).
Proof.
  intros H. unfold pause.
  destruct (page <? pages)%nat; [|done].
  by apply same_responses_advance.
Qed.

Section Determinism.

Variable urljoin : string -> string -> string.
Variable BeautifulSoup : string -> node.
Variable base_url : string.

Lemma get_page_attempts_same (u : string) (retry_count remaining attempt : nat)
  (w1 w2 : world) :
  same_responses w1 w2 ->
  let run1 := get_page_attempts BeautifulSoup u retry_count attempt remaining w1 in
  let run2 := get_page_attempts BeautifulSoup u retry_count attempt remaining w2 in
  run1.1 = run2.1 /\ same_responses run1.2 run2.2.
Proof.
  revert attempt w1 w2.
  induction remaining as [|remaining IH]; intros attempt w1 w2 Hsame; [done|].
  cbv zeta. rewrite !get_page_attempts_step. cbv zeta.
  destruct Hsame as (Hnet & Hreq & Htw & Hcalls).
  rewrite Hnet, Hreq.
  destruct (body_of (network w2 (requests w2) u)) as [body|].
  - split; [done|]. by apply same_responses_advance.
  - apply IH. by apply same_responses_backoff, same_responses_advance.
Qed.

Lemma scrape_pages_same (query : string) (pages remaining page : nat)
  (all_results : list result_data) (w1 w2 : world) :
  same_responses w1 w2 ->
  (scrape_pages urljoin BeautifulSoup base_url query pages page remaining
     all_results w1).1 =
  (scrape_pages urljoin BeautifulSoup base_url query pages page remaining
     all_results w2).1.
Proof.
  revert page all_results w1 w2.
  induction remaining as [|remaining IH]; intros page all_results w1 w2 Hsame;
    [done|].
  rewrite !scrape_pages_step. cbv zeta.
  destruct (get_page_attempts_same (urljoin base_url (search_url query page))
              3 3 0 w1 w2 Hsame) as [Hsoup Hsame'].
  fold (get_page urljoin BeautifulSoup base_url (search_url query page) 3 w1)
    in Hsoup, Hsame'.
  fold (get_page urljoin BeautifulSoup base_url (search_url query page) 3 w2)
    in Hsoup, Hsame'.
  rewrite Hsoup.
  destruct (get_page urljoin BeautifulSoup base_url (search_url query page) 3 w2).1
    as [soup|]; [|done].
  destruct (select soup div_search_result) as [|item items]; [done|].
  apply IH. by apply same_responses_pause, same_responses_add_log.
Qed.

End Determinism.

Lemma search_loop_same (fuel : nat) (request : Tweepy.SearchRequest)
  (retry_count : nat) (retry_delay : Z) (tweets : list Twitter.tweet_data)
  (w1 w2 : world) :
  same_responses w1 w2 ->
  (Twitter.search_loop fuel request retry_count retry_delay tweets w1).1 =
  (Twitter.search_loop fuel request retry_count retry_delay tweets w2).1.
Proof.
  revert retry_count retry_delay w1 w2.
  induction fuel as [|fuel IH]; intros retry_count retry_delay w1 w2 Hsame; [done|].
  rewrite !search_loop_step.
  destruct (retry_count <=? Twitter.max_retries)%nat; [|done].
  pose proof Hsame as (_ & _ & Htw & Hcalls). rewrite Htw, Hcalls.
  destruct (twitter w2 (api_calls w2) request) as [response| |e]; [| |done].
  - by destruct (Tweepy.data response) as [[|tweet data]|].
  - destruct (retry_count <? Twitter.max_retries)%nat; [|done].
    apply IH. by apply same_responses_advance.
Qed.

(** * The claims *)

(** ** C1: extraction of elements *)




(** ** C2: the backoff delay *)




(** ** C3: rate-limit signals *)

(** C3: with [max_retries = 5], each of the first five rate-limit
    signals in a row is waited out: the log of the run starts with, for
    each of them, the request, the notice and a sleep (of 60, 120, 240,
    480 and 960 seconds), and goes on with a new request.  When the
    sixth request in a row is rate limited too, the run stops there:
    nothing is slept after the fifth wait, the line about the maximum
    of retries is printed and the empty list is returned. *)
Theorem C3_five_waits_then_abort (query : string) (max_results : Z)
  (start_time end_time : option string) (w : world) :
  let request :=
    Tweepy.Build_SearchRequest query (Z.min max_results 100) start_time end_time in
  let run := Twitter.search_tweets query max_results start_time end_time w in
  (forall k, (k <= 5)%nat -> rate_limited w request k ->
     exists n rest,
       run.2 = advance 0 (k + S n) 0
                 (waits request 60 k ++ ESearch request :: rest) w) /\
  (rate_limited w request 6 ->
     run = (Some [],
            advance 0 6 0
              (waits request 60 5 ++ [ESearch request; EPrint MsgMaxRetries]) w)).
Proof.
  intros request run. subst run. unfold Twitter.search_tweets. fold request. split.
  - intros k Hk Hlimited.
    replace (Twitter.max_retries + 2)%nat with (k + S (6 - k))%nat
      by (unfold Twitter.max_retries; lia).
    rewrite search_loop_waits by (unfold Twitter.max_retries; done || lia).
    match goal with |- context [Twitter.search_loop (S ?f) _ ?c ?d ?t ?w'] =>
      destruct (search_loop_requests_first f request c d t w')
        as (n & rest & ->); [unfold Twitter.max_retries; lia|]
    end.
    rewrite advance_advance. exists n, rest. f_equal; lia.
  - intros Hlimited.
    change (Twitter.max_retries + 2)%nat with (5 + 2)%nat.
    rewrite search_loop_waits.
    + rewrite search_loop_step. cbn [Nat.add Nat.leb Nat.ltb Twitter.max_retries].
      rewrite api_calls_advance, twitter_advance.
      rewrite (Hlimited 5%nat) by lia.
      by rewrite advance_advance.
    + unfold Twitter.max_retries. lia.
    + intros i Hi. apply Hlimited. lia.
Qed.

Lemma C3_five_waits_then_abort_witness :
  let w := Examples.calm 0 in
  let run := Twitter.search_tweets "leak" 500 None None w in
  run.1 = Some [] /\
  List.filter is_sleep (emitted w run.2) =
    [ESleep 60; ESleep 120; ESleep 240; ESleep 480; ESleep 960].
Proof.
  intros w run.
  pose proof (proj2 (C3_five_waits_then_abort "leak" 500 None None w)) as Habort.
  cbv zeta in Habort. fold run in Habort.
  rewrite Habort by (intros i _; reflexivity).
  cbn [fst snd]. split; [reflexivity|].
  rewrite emitted_advance. vm_compute. reflexivity.
Defined.

(** ** C5: an empty page ends the run *)

(** C5: when [pages >= 3], the pull of page 1 returns a document with
    results and the pull of page 2, made after the politeness pause,
    returns a document without results, the run returns exactly the
    records of page 1 and ends in the world the pull of page 2 left,
    with one more line printed.  No request is made after that pull:
    every request of the run is for the URL of page 1 or of page 2, and
    where [urljoin] keeps distinct references distinct none is for the
    URL of page 3. *)
Theorem C5_empty_page_ends_the_run
  (urljoin : string -> string -> string) (BeautifulSoup : string -> node)
  (base_url query : string) (pages : nat) (w w1 w2 : world) (soup1 soup2 : node) :
  let get_page := get_page urljoin BeautifulSoup base_url in
  let run := scrape_search_results urljoin BeautifulSoup base_url query pages w in
  let results1 := select soup1 div_search_result in
  (3 <= pages)%nat ->
  get_page (search_url query 1) 3%nat w = (Some soup1, w1) ->
  results1 <> [] ->
  get_page (search_url query 2) 3%nat
    (pause pages 1
       (add_log (map (fun _ => EPrint (MsgErrorParsingItem "href")) (skipped results1))
          w1)) = (Some soup2, w2) ->
  select soup2 div_search_result = [] ->
  run = (map (item_record urljoin base_url) (kept results1),
         add_log [EPrint (MsgNoResults 2)] w2) /\
  requests run.2 = requests w2 /\
  (forall u, EGet u ∈ emitted w run.2 ->
     u = urljoin base_url (search_url query 1) \/
     u = urljoin base_url (search_url query 2)) /\
  ((forall a b, urljoin base_url a = urljoin base_url b -> a = b) ->
   EGet (urljoin base_url (search_url query 3)) ∉ emitted w run.2).
Proof.
  intros get_page run results1 Hpages Hget1 Hres1 Hget2 Hres2.
  assert (Hrun : run = (map (item_record urljoin base_url) (kept results1),
                        add_log [EPrint (MsgNoResults 2)] w2)).
  { subst run. unfold scrape_search_results.
    destruct pages as [|[|remaining]]; [lia|lia|].
    rewrite scrape_pages_step. cbv zeta. fold get_page. rewrite Hget1. cbn [fst snd].
    fold results1. destruct results1 as [|item items] eqn:Hitems; [done|].
    rewrite scrape_pages_step. cbv zeta. fold get_page. rewrite Hget2. cbn [fst snd].
    rewrite Hres2. reflexivity. }
  assert (Hgets : forall u, EGet u ∈ emitted w run.2 ->
     u = urljoin base_url (search_url query 1) \/
     u = urljoin base_url (search_url query 2)).
  { rewrite Hrun. cbn [snd]. intros u Hu.
    destruct (get_page_shape urljoin BeautifulSoup base_url (search_url query 1) 3 w)
      as (g1 & r1 & evs1 & Hw1 & Hevs1).
    fold get_page in Hw1. rewrite Hget1 in Hw1. cbn [snd] in Hw1.
    match type of Hget2 with get_page _ _ ?w' = _ =>
      destruct (get_page_shape urljoin BeautifulSoup base_url (search_url query 2) 3 w')
        as (g2 & r2 & evs2 & Hw2 & Hevs2)
    end.
    fold get_page in Hw2. rewrite Hget2 in Hw2. cbn [snd] in Hw2.
    rewrite Hw2, Hw1 in Hu. unfold pause in Hu.
    replace (1 <? pages)%nat with true in Hu by (symmetry; apply Nat.ltb_lt; lia).
    cbv zeta in Hu. change add_log with (advance 0 0 0) in Hu.
    rewrite !advance_advance, emitted_advance in Hu.
    split_elem Hu; try done;
      first [ left; by apply Hevs1
            | right; by apply Hevs2
            | apply list_elem_of_fmap in Hu; by destruct Hu as (? & ? & _) ]. }
  split; [exact Hrun|]. split; [by rewrite Hrun|]. split; [exact Hgets|].
  intros Hinj Hin. destruct (Hgets _ Hin) as [H|H];
    apply Hinj, search_url_inj in H; lia.
Qed.

Lemma C5_empty_page_ends_the_run_witness :
  let w := Examples.one_page_of_results (1 # 2) in
  let run := scrape_search_results Examples.join Examples.parse Examples.site
               "ssh" 3 w in
  run.1 = map (item_record Examples.join Examples.site)
              [Examples.item_one; Examples.item_three] /\
  requests run.2 = 2%nat.
Proof.
  intros w run.
  set (w1 := (get_page Examples.join Examples.parse Examples.site
                (search_url "ssh" 1) 3 w).2).
  set (w1' := pause 3 1
                (add_log (map (fun _ => EPrint (MsgErrorParsingItem "href"))
                            (skipped (select Examples.document div_search_result)))
                   w1)).
  set (w2 := (get_page Examples.join Examples.parse Examples.site
                (search_url "ssh" 2) 3 w1').2).
  destruct (C5_empty_page_ends_the_run Examples.join Examples.parse Examples.site
              "ssh" 3 w w1 w2 Examples.document (Examples.parse "empty"))
    as (Hrun & Hrequests & _).
  - lia.
  - vm_compute. reflexivity.
  - vm_compute. discriminate.
  - vm_compute. reflexivity.
  - vm_compute. reflexivity.
  - fold run in Hrun, Hrequests. split.
    + rewrite Hrun. vm_compute. reflexivity.
    + rewrite Hrequests. vm_compute. reflexivity.
Defined.

(** ** C6: two failures, then success *)

(** C6: when the first two replies to [get_page url 3] are failures (a
    status other than 200, or a transport error) and the third is a 200,
    [get_page] returns the parsed body of the third, after three
    requests and exactly two sleeps, the backoff delays of attempts 0
    and 1.  The homepage scrape and a one-page search that start this
    way return the records of that page, and sleep exactly these two
    times. *)
Theorem C6_two_failures_then_success
  (urljoin : string -> string -> string) (BeautifulSoup : string -> node)
  (base_url url body : string) (w : world) :
  let u := urljoin base_url url in
  let r0 := network w (requests w) u in
  let r1 := network w (1 + requests w)%nat u in
  let d0 := backoff_delay 0 (0 + (1 - 0) * entropy w (draws w))%Q in
  let d1 := backoff_delay 1 (0 + (1 - 0) * entropy w (1 + draws w)%nat)%Q in
  let evs := [EPrint (MsgFetching u); EGet u; EPrint (failure_notice u r0);
              EPrint (MsgRetrying d0); ESleep d0;
              EPrint (MsgFetching u); EGet u; EPrint (failure_notice u r1);
              EPrint (MsgRetrying d1); ESleep d1;
              EPrint (MsgFetching u); EGet u] in
  let soup := BeautifulSoup body in
  body_of r0 = None ->
  body_of r1 = None ->
  network w (2 + requests w)%nat u = Requests.Response 200 body ->
  get_page urljoin BeautifulSoup base_url url 3 w =
    (Some soup, advance 3 0 2 evs w) /\
  List.filter is_sleep evs = [ESleep d0; ESleep d1] /\
  (url = "/" ->
   let run := scrape_leakix_homepage urljoin BeautifulSoup base_url w in
   run.1 = map (card_record urljoin base_url) (kept (select soup div_card)) /\
   List.filter is_sleep (emitted w run.2) = [ESleep d0; ESleep d1]) /\
  (forall query, url = search_url query 1 ->
   let run := scrape_search_results urljoin BeautifulSoup base_url query 1 w in
   run.1 = map (item_record urljoin base_url) (kept (select soup div_search_result)) /\
   List.filter is_sleep (emitted w run.2) = [ESleep d0; ESleep d1]).
Proof.
  intros u r0 r1 d0 d1 evs soup H0 H1 H2.
  assert (Hget : get_page urljoin BeautifulSoup base_url url 3 w =
                 (Some soup, advance 3 0 2 evs w)).
  { unfold get_page. fold u.
    rewrite get_page_attempts_step. cbv zeta. fold r0. rewrite H0.
    rewrite get_page_attempts_step. cbv zeta.
    unfold backoff, backs_off, uniform_in. cbn [Nat.ltb Nat.leb Nat.sub].
    run. change (network w (S (requests w)) u) with r1. rewrite H1.
    rewrite get_page_attempts_step. cbv zeta.
    unfold backoff, backs_off, uniform_in. cbn [Nat.ltb Nat.leb Nat.sub].
    run. cbn [Nat.add] in H2. rewrite H2. cbn [body_of Z.eqb Pos.eqb]. reflexivity. }
  assert (Hquiet : forall (notices : list event),
            Forall (fun e => is_print e = true) notices ->
            List.filter is_sleep (evs ++ notices) = [ESleep d0; ESleep d1]).
  { intros notices Hn. rewrite List.filter_app.
    replace (List.filter is_sleep notices) with (@nil event); [reflexivity|].
    symmetry. induction Hn as [|e l He _ IH]; [reflexivity|].
    cbn. destruct e; try discriminate. exact IH. }
  split; [exact Hget|]. split; [reflexivity|]. split.
  - intros -> run. subst run. unfold scrape_leakix_homepage.
    rewrite bind_run, Hget. cbn [fst snd]. rewrite parse_cards_run. cbn [fst snd].
    split; [reflexivity|].
    rewrite add_log_advance, advance_advance, emitted_advance.
    apply Hquiet, Forall_forall. intros e He.
    apply list_elem_of_fmap in He. by destruct He as (? & -> & _).
  - intros query -> run. subst run. unfold scrape_search_results.
    rewrite scrape_pages_step. cbv zeta. rewrite Hget. cbn [fst snd]. fold soup.
    destruct (select soup div_search_result) as [|item items].
    + cbn [fst snd]. split; [reflexivity|].
      rewrite add_log_advance, advance_advance, emitted_advance.
      apply Hquiet. by repeat constructor.
    + unfold pause. cbn [Nat.ltb Nat.leb LeakIX.scrape_pages]. rewrite ret_run.
      cbn [fst snd]. split; [reflexivity|].
      rewrite add_log_advance, advance_advance, emitted_advance.
      apply Hquiet, Forall_forall. intros e He.
      apply list_elem_of_fmap in He. by destruct He as (? & -> & _).
Qed.

Lemma C6_two_failures_then_success_witness :
  let w := Examples.flaky (1 # 2) in
  let run := get_page Examples.join Examples.parse Examples.site "/" 3 w in
  run.1 = Some Examples.document /\
  List.filter is_sleep (emitted w run.2) = [ESleep (3 # 2); ESleep (5 # 2)].
Proof.
  intros w run.
  destruct (C6_two_failures_then_success Examples.join Examples.parse
              Examples.site "/" "page" w) as (Hget & Hsleeps & _).
  - reflexivity.
  - reflexivity.
  - reflexivity.
  - subst run. rewrite Hget. cbn [fst snd]. split; [reflexivity|].
    rewrite emitted_advance, Hsleeps. vm_compute. reflexivity.
Defined.

(** ** C7: the politeness delay *)

(** C7: in every run of [scrape_search_results] the log is polite: each
    page pull after the first comes right after a delay of 2 to 5
    seconds, drawn, announced and slept once the preceding page was
    parsed; no page pull follows another without it. *)
Theorem C7_politeness_delay_before_every_next_page
  (urljoin : string -> string -> string) (BeautifulSoup : string -> node)
  (base_url query : string) (pages : nat) (w : world) :
  unit_interval (entropy w) ->
  (0 < pages)%nat ->
  polite urljoin BeautifulSoup base_url query 1
    (emitted w (scrape_search_results urljoin BeautifulSoup base_url query pages w).2).
Proof.
  intros Hunit Hpages. unfold scrape_search_results.
  destruct pages as [|remaining]; [lia|].
  destruct (scrape_pages_polite urljoin BeautifulSoup base_url query
              (S remaining) remaining 1 [] w Hunit eq_refl)
    as (g & r & evs & Hrun & Hpolite).
  by rewrite Hrun, emitted_advance.
Qed.

Lemma C7_politeness_delay_before_every_next_page_witness :
  polite Examples.join Examples.parse Examples.site "ssh" 1
    (emitted (Examples.calm (1 # 2))
       (scrape_search_results Examples.join Examples.parse Examples.site
          "ssh" 2 (Examples.calm (1 # 2))).2).
Proof.
  apply C7_politeness_delay_before_every_next_page.
  - apply (unit_interval_const (1 # 2)); [discriminate | reflexivity].
  - lia.
Defined.

(** ** C8: the records do not depend on the jitter *)

(** C8: two runs in worlds that answer alike return the same records,
    whatever their random sources give: for the homepage scrape, for the
    search over any number of pages, and for the tweet search (which
    draws no random number at all). *)
Theorem C8_records_do_not_depend_on_jitter
  (urljoin : string -> string -> string) (BeautifulSoup : string -> node)
  (base_url query : string) (pages : nat)
  (tweet_query : string) (max_results : Z) (start_time end_time : option string)
  (w1 w2 : world) :
  same_responses w1 w2 ->
  (scrape_leakix_homepage urljoin BeautifulSoup base_url w1).1 =
  (scrape_leakix_homepage urljoin BeautifulSoup base_url w2).1 /\
  (scrape_search_results urljoin BeautifulSoup base_url query pages w1).1 =
  (scrape_search_results urljoin BeautifulSoup base_url query pages w2).1 /\
  (Twitter.search_tweets tweet_query max_results start_time end_time w1).1 =
  (Twitter.search_tweets tweet_query max_results start_time end_time w2).1.
Proof.
  intros Hsame. split; [|split].
  - unfold scrape_leakix_homepage. rewrite !bind_run.
    destruct (get_page_attempts_same BeautifulSoup (urljoin base_url "/")
                3 3 0 w1 w2 Hsame) as [Hsoup _].
    fold (get_page urljoin BeautifulSoup base_url "/" 3 w1) in Hsoup.
    fold (get_page urljoin BeautifulSoup base_url "/" 3 w2) in Hsoup.
    rewrite Hsoup.
    destruct (get_page urljoin BeautifulSoup base_url "/" 3 w2).1 as [soup|];
      [|done].
    by rewrite !parse_cards_run.
  - by apply scrape_pages_same.
  - by apply search_loop_same.
Qed.

Lemma C8_records_do_not_depend_on_jitter_witness :
  (scrape_search_results Examples.join Examples.parse Examples.site "ssh" 2
     (Examples.calm 0)).1 =
  (scrape_search_results Examples.join Examples.parse Examples.site "ssh" 2
     (Examples.calm (9 # 10))).1.
Proof.
  apply (C8_records_do_not_depend_on_jitter Examples.join Examples.parse
           Examples.site "ssh" 2 "leak" 100 None None
           (Examples.calm 0) (Examples.calm (9 # 10))).
  repeat split; reflexivity.
Defined.
(** ** C9: saving an empty list *)

(** C9: each of the four saving functions, called with an empty list,
    prints its notice and returns; the files of the world, the one named
    [filename] among them, are what they were. *)
Theorem C9_saving_nothing_writes_nothing (A : Type)
  (to_csv json_dump : list A -> string) (filename : string) (w : world) :
  LeakIX.save_to_csv A to_csv [] filename w =
    (tt, add_log [EPrint (MsgNoData filename)] w) /\
  LeakIX.save_to_json A json_dump [] filename w =
    (tt, add_log [EPrint (MsgNoData filename)] w) /\
  Twitter.save_to_csv A to_csv [] filename w =
    (tt, add_log [EPrint (MsgNoTweets filename)] w) /\
  Twitter.save_to_json A json_dump [] filename w =
    (tt, add_log [EPrint (MsgNoTweets filename)] w) /\
  files (LeakIX.save_to_csv A to_csv [] filename w).2 = files w /\
  files (LeakIX.save_to_json A json_dump [] filename w).2 = files w /\
  files (Twitter.save_to_csv A to_csv [] filename w).2 = files w /\
  files (Twitter.save_to_json A json_dump [] filename w).2 = files w.
Proof. repeat split; reflexivity. Qed.

(** ** C10: the details dictionary *)

(** C10, as stated, fails: both detail items of the example have a key
    element and a value element, yet the dictionary does not hold the
    pair of the first one, whose key the second one uses again. *)
Lemma C10_repeated_key_keeps_last_value :
  select Examples.item_two_ports div_detail_item =
    [Examples.detail "port" "80"; Examples.detail "port" "443"] /\
  detail_pair (Examples.detail "port" "80") = Some ("port", "80") /\
  detail_pair (Examples.detail "port" "443") = Some ("port", "443") /\
  _extract_details Examples.item_two_ports !! "port" = Some "443" /\
  _extract_details Examples.item_two_ports !! "port" <> Some "80".
Proof. vm_compute. repeat split; try reflexivity. discriminate. Qed.

(** C10, amended: the dictionary holds [value] under [key] exactly when
    some detail item with both a key element and a value element has
    these texts and no later such item has the same key text.  So every
    entry is the pair of an item that has both elements, every such item
    has its key in the dictionary, and an item that lacks either element
    adds nothing; the function is total. *)
Theorem C10_details_hold_last_complete_pair (element : node) (key value : string) :
  let pairs := omap detail_pair (select element div_detail_item) in
  (_extract_details element !! key = Some value <->
   exists before after, pairs = before ++ (key, value) :: after /\ key ∉ after.*1) /\
  (_extract_details element !! key = Some value ->
   exists detail, detail ∈ select element div_detail_item /\
                  detail_pair detail = Some (key, value)) /\
  (forall detail, detail ∈ select element div_detail_item ->
                  detail_pair detail = Some (key, value) ->
                  is_Some (_extract_details element !! key)).
Proof.
  intros pairs.
  assert (Hchar : forall k v, _extract_details element !! k = Some v <->
            exists before after, pairs = before ++ (k, v) :: after /\ k ∉ after.*1).
  { intros k v. unfold _extract_details. rewrite extract_detail_items_fold.
    rewrite lookup_foldl_insert. fold pairs. split.
    - intros [H|[_ H]]; [done | by rewrite lookup_empty in H].
    - intros H. by left. }
  split; [apply Hchar|]. split.
  - intros H. apply Hchar in H as (before & after & E & _).
    assert (Hin : (key, value) ∈ pairs).
    { rewrite E. apply elem_of_app. right. apply elem_of_cons. by left. }
    unfold pairs in Hin. apply list_elem_of_omap in Hin as (detail & ? & ?).
    by exists detail.
  - intros detail Hin Hpair.
    assert (Hk : key ∈ pairs.*1).
    { apply list_elem_of_fmap. exists (key, value). split; [done|].
      unfold pairs. apply list_elem_of_omap. by exists detail. }
    destruct (last_binding pairs key Hk) as (value' & before & after & E & Hafter).
    exists value'. apply Hchar. by exists before, after.
Qed.


Lemma C10_details_hold_last_complete_pair_witness :
  _extract_details Examples.item_two_ports !! "port" = Some "443".
Proof.
  apply (proj1 (C10_details_hold_last_complete_pair
                  Examples.item_two_ports "port" "443")).
  exists [("port", "80")], []. split.
  - vm_compute. reflexivity.
  - apply not_elem_of_nil.
Defined.

(** * Further properties *)

Import RunSpec.

(** ** Logs *)

Lemma sleeps_app (evs1 evs2 : list event) :
  sleeps (evs1 ++ evs2) = sleeps evs1 ++ sleeps evs2.
Proof. apply List.filter_app. Qed.

Lemma gets_app (evs1 evs2 : list event) :
  gets (evs1 ++ evs2) = gets evs1 ++ gets evs2.
Proof. apply List.filter_app. Qed.

Lemma slept_app (evs1 evs2 : list event) :
  (slept (evs1 ++ evs2) == slept evs1 + slept evs2)%Q.
Proof.
  induction evs1 as [|e evs1 IH]; cbn [app slept]; [lra|].
  destruct e; try exact IH. rewrite IH. lra.
Qed.

Lemma slept_sleeps (evs : list event) : slept (sleeps evs) = slept evs.
Proof.
  induction evs as [|e evs IH]; [reflexivity|].
  destruct e; cbn; try exact IH. by rewrite <- IH.
Qed.

(** ** get_page, attempt by attempt *)

Section Attempts.

Variable urljoin : string -> string -> string.
Variable BeautifulSoup : string -> node.
Variable base_url : string.

Lemma backoff_sleeps_succ (w : world) (attempt k : nat) (evs : list event) :
  backoff_sleeps w attempt (S k) =
  ESleep (backoff_delay attempt (0 + (1 - 0) * entropy w (draws w))) ::
  backoff_sleeps (advance 1 0 1 evs w) (S attempt) k.
Proof.
  unfold backoff_sleeps. cbn [seq map]. rewrite Nat.add_0_r. f_equal.
  rewrite <- seq_shift, map_map. apply map_ext. intros i.
  rewrite entropy_advance, draws_advance.
  replace (S attempt + i)%nat with (attempt + S i)%nat by lia.
  replace (i + (1 + draws w))%nat with (S i + draws w)%nat by lia.
  reflexivity.
Qed.

(** [k] failed attempts, none of them the last one, are each followed
    by a backoff. *)
Lemma get_page_attempts_fail (u : string) (retry_count k remaining attempt : nat)
  (w : world) :
  (attempt + k < retry_count)%nat ->
  fails w u k ->
  exists evs,
    get_page_attempts BeautifulSoup u retry_count attempt (k + remaining) w =
    get_page_attempts BeautifulSoup u retry_count (attempt + k) remaining
      (advance k 0 k evs w) /\
    sleeps evs = backoff_sleeps w attempt k /\
    gets evs = repeat (EGet u) k.
Proof.
  revert attempt w. induction k as [|k IH]; intros attempt w Hlast Hfails.
  - exists []. rewrite advance_0, Nat.add_0_r. done.
  - cbn [Nat.add]. rewrite get_page_attempts_step. cbv zeta.
    pose proof (Hfails 0%nat ltac:(lia)) as H0. cbn [Nat.add] in H0. rewrite H0.
    unfold backoff, backs_off.
    replace (attempt <? retry_count - 1)%nat with true
      by (symmetry; apply Nat.ltb_lt; lia).
    cbv zeta. rewrite advance_advance. cbn [Nat.add app].
    match goal with |- context [advance 1 0 1 ?evs0 w] =>
      destruct (IH (S attempt) (advance 1 0 1 evs0 w)) as (evs & Hrun & Hsleeps & Hgets);
        [lia| |exists (evs0 ++ evs)]
    end.
    + intros i Hi. rewrite network_advance, requests_advance.
      replace (i + (1 + requests w))%nat with (S i + requests w)%nat by lia.
      apply Hfails. lia.
    + rewrite Hrun, advance_advance.
      replace (S attempt + k)%nat with (attempt + S k)%nat by lia.
      replace (k + 1)%nat with (S k) by lia.
      split; [reflexivity|]. split.
      * rewrite sleeps_app, Hsleeps. unfold uniform_in.
        rewrite entropy_advance, draws_advance. cbn [sleeps List.filter is_sleep app Nat.add].
        symmetry. apply backoff_sleeps_succ.
      * rewrite gets_app, Hgets. reflexivity.
Qed.

(** The run of [get_page] when the first [k] replies are failures and
    the next one is accepted. *)
Lemma get_page_succeeds (url body : string) (retry_count k : nat) (w : world) :
  (k < retry_count)%nat ->
  fails w (urljoin base_url url) k ->
  body_of (network w (k + requests w)%nat (urljoin base_url url)) = Some body ->
  exists evs,
    get_page urljoin BeautifulSoup base_url url retry_count w =
      (Some (BeautifulSoup body), advance (S k) 0 k evs w) /\
    sleeps evs = backoff_sleeps w 0 k /\
    gets evs = repeat (EGet (urljoin base_url url)) (S k).
Proof.
  intros Hk Hfails Hbody. unfold get_page.
  replace (get_page_attempts BeautifulSoup (urljoin base_url url) retry_count 0
             retry_count w)
    with (get_page_attempts BeautifulSoup (urljoin base_url url) retry_count 0
             (k + S (retry_count - S k)) w) by (f_equal; lia).
  destruct (get_page_attempts_fail (urljoin base_url url) retry_count k
              (S (retry_count - S k)) 0 w ltac:(lia) Hfails)
    as (evs & -> & Hsleeps & Hgets).
  rewrite get_page_attempts_step. cbv zeta.
  rewrite network_advance, requests_advance, Hbody, advance_advance.
  eexists. split; [reflexivity|]. split.
  - rewrite sleeps_app, Hsleeps. cbn. by rewrite app_nil_r.
  - rewrite gets_app, Hgets. cbn [gets List.filter is_get].
    by rewrite <- repeat_cons.
Qed.

(** The run of [get_page] when all its replies are failures. *)
Lemma get_page_exhausts (url : string) (retry_count : nat) (w : world) :
  fails w (urljoin base_url url) retry_count ->
  exists evs,
    get_page urljoin BeautifulSoup base_url url retry_count w =
      (None, advance retry_count 0 (retry_count - 1) evs w) /\
    sleeps evs = backoff_sleeps w 0 (retry_count - 1) /\
    gets evs = repeat (EGet (urljoin base_url url)) retry_count.
Proof.
  intros Hfails. unfold get_page.
  destruct retry_count as [|k].
  { exists []. cbn. by rewrite advance_0. }
  replace (get_page_attempts BeautifulSoup (urljoin base_url url) (S k) 0
             (S k) w)
    with (get_page_attempts BeautifulSoup (urljoin base_url url) (S k) 0
             (k + 1) w) by (f_equal; lia).
  destruct (get_page_attempts_fail (urljoin base_url url) (S k) k 1 0 w
              ltac:(lia) ltac:(intros i Hi; apply Hfails; lia))
    as (evs & -> & Hsleeps & Hgets).
  rewrite get_page_attempts_step. cbv zeta.
  rewrite network_advance, requests_advance, (Hfails k) by lia.
  unfold backoff, backs_off. cbn [Nat.add Nat.sub].
  rewrite Nat.sub_0_r, Nat.ltb_irrefl.
  cbn [get_page_attempts]. rewrite ret_run, advance_advance.
  replace (1 + k)%nat with (S k) by lia. replace (0 + k)%nat with k by lia.
  eexists. split; [reflexivity|]. split.
  - rewrite sleeps_app, Hsleeps. cbn. by rewrite app_nil_r.
  - rewrite gets_app, Hgets. cbn [gets List.filter is_get].
    by rewrite <- repeat_cons.
Qed.

(** Either some reply among the next [n] is accepted, after failures
    only, or all of them are failures. *)
Lemma first_accepted (w : world) (u : string) (n : nat) :
  (exists k body, (k < n)%nat /\ fails w u k /\
                  body_of (network w (k + requests w)%nat u) = Some body) \/
  fails w u n.
Proof.
  induction n as [|n [(k & body & Hk & Hfails & Hbody)|Hfails]].
  - right. intros i Hi. lia.
  - left. exists k, body. split; [lia|done].
  - destruct (body_of (network w (n + requests w)%nat u)) as [body|] eqn:Hn.
    + left. exists n, body. split; [lia|]. by split.
    + right. intros i Hi. destruct (decide (i = n)) as [->|]; [done|].
      apply Hfails. lia.
Qed.

End Attempts.

(** ** How long the backoffs of get_page last *)

Lemma slept_backoff_sleeps (w : world) (attempt k : nat) :
  unit_interval (entropy w) ->
  (inject_Z (2 ^ Z.of_nat (attempt + k) - 2 ^ Z.of_nat attempt)
   <= slept (backoff_sleeps w attempt k))%Q /\
  (slept (backoff_sleeps w attempt k)
   <= inject_Z (2 ^ Z.of_nat (attempt + k) - 2 ^ Z.of_nat attempt + Z.of_nat k))%Q.
Proof.
  intros Hunit. unfold backoff_sleeps. induction k as [|k [IHlo IHhi]].
  - cbn [seq map slept]. rewrite Nat.add_0_r, Z.sub_diag.
    change (inject_Z (0 + Z.of_nat 0)) with 0%Q. change (inject_Z 0) with 0%Q.
    split; lra.
  - rewrite seq_S, map_app, slept_app. cbn [Nat.add map slept].
    destruct (Hunit (k + draws w)%nat) as [H0 H1].
    unfold backoff_delay in *.
    replace (2 ^ Z.of_nat (attempt + S k))%Z
      with (2 ^ Z.of_nat (attempt + k) + 2 ^ Z.of_nat (attempt + k))%Z
      by (replace (attempt + S k)%nat with (S (attempt + k)) by lia;
          rewrite Nat2Z.inj_succ, Z.pow_succ_r by lia; lia).
    rewrite Nat2Z.inj_succ. unfold Z.succ.
    unfold Z.sub in *. rewrite !inject_Z_plus, !inject_Z_opp in *.
    change (inject_Z 1) with 1%Q. split; lra.
Qed.

Lemma backoff_time_grows (k m : nat) :
  (k <= m)%nat ->
  (2 ^ Z.of_nat k - 1 + Z.of_nat k <= 2 ^ Z.of_nat m - 1 + Z.of_nat m)%Z.
Proof.
  intros Hkm.
  assert (2 ^ Z.of_nat k <= 2 ^ Z.of_nat m)%Z by (apply Z.pow_le_mono_r; lia).
  lia.
Qed.

(** What one call of [get_page] costs: requests and seconds slept. *)
Lemma get_page_cost
  (urljoin : string -> string -> string) (BeautifulSoup : string -> node)
  (base_url url : string) (retry_count : nat) (w : world) :
  unit_interval (entropy w) ->
  exists g r evs,
    (get_page urljoin BeautifulSoup base_url url retry_count w).2 =
      advance g 0 r evs w /\
    (g <= retry_count)%nat /\
    (slept evs
     <= inject_Z (2 ^ Z.of_nat (retry_count - 1) - 1 + Z.of_nat (retry_count - 1)))%Q.
Proof.
  intros Hunit.
  assert (Hshape : exists k g evs, (k <= retry_count - 1)%nat /\
            (g <= retry_count)%nat /\
            (get_page urljoin BeautifulSoup base_url url retry_count w).2 =
              advance g 0 k evs w /\
            sleeps evs = backoff_sleeps w 0 k).
  { destruct (first_accepted w (urljoin base_url url) retry_count)
      as [(k & body & Hk & Hfails & Hbody)|Hfails].
    - destruct (get_page_succeeds urljoin BeautifulSoup base_url url body
                  retry_count k w Hk Hfails Hbody) as (evs & -> & Hsleeps & _).
      exists k, (S k), evs. split; [lia|]. split; [lia|done].
    - destruct (get_page_exhausts urljoin BeautifulSoup base_url url retry_count w
                  Hfails) as (evs & -> & Hsleeps & _).
      exists (retry_count - 1)%nat, retry_count, evs. split; [lia|]. split; [lia|done]. }
  destruct Hshape as (k & g & evs & Hk & Hg & -> & Hsleeps).
  exists g, k, evs. split; [done|]. split; [done|].
  rewrite <- slept_sleeps, Hsleeps.
  destruct (slept_backoff_sleeps w 0 k Hunit) as [_ Hhi].
  eapply Qle_trans; [exact Hhi|].
  rewrite <- Zle_Qle. cbn [Nat.add Z.of_nat]. rewrite Z.pow_0_r.
  by apply backoff_time_grows.
Qed.

(** ** X1 to X4: get_page *)

(** X1: when the next [retry_count] replies are all failures, [get_page]
    returns [None] after exactly [retry_count] requests, all for its
    URL, and [retry_count - 1] backoff sleeps, those of attempts 0, 1,
    ...: it does not sleep after the last attempt.  It draws one random
    number per sleep and writes no file. *)
Theorem X1_get_page_gives_up_after_retry_count_requests
  (urljoin : string -> string -> string) (BeautifulSoup : string -> node)
  (base_url url : string) (retry_count : nat) (w : world) :
  let u := urljoin base_url url in
  let run := get_page urljoin BeautifulSoup base_url url retry_count w in
  fails w u retry_count ->
  run.1 = None /\
  requests run.2 = (retry_count + requests w)%nat /\
  gets (emitted w run.2) = repeat (EGet u) retry_count /\
  sleeps (emitted w run.2) = backoff_sleeps w 0 (retry_count - 1) /\
  draws run.2 = (retry_count - 1 + draws w)%nat /\
  files run.2 = files w.
Proof.
  intros u run Hfails. subst run.
  destruct (get_page_exhausts urljoin BeautifulSoup base_url url retry_count w Hfails)
    as (evs & -> & Hsleeps & Hgets).
  cbn [fst snd]. by rewrite emitted_advance.
Qed.

Lemma X1_get_page_gives_up_after_retry_count_requests_witness :
  let run := get_page Examples.join Examples.parse Examples.site "/" 3
               (Examples.down (1 # 2)) in
  run.1 = None /\ requests run.2 = 3%nat /\
  sleeps (emitted (Examples.down (1 # 2)) run.2) = [ESleep (3 # 2); ESleep (5 # 2)].
Proof.
  intros run.
  destruct (X1_get_page_gives_up_after_retry_count_requests
              Examples.join Examples.parse Examples.site "/" 3
              (Examples.down (1 # 2)))
    as (Hnone & Hrequests & _ & Hsleeps & _).
  - intros i _. reflexivity.
  - fold run in Hnone, Hrequests, Hsleeps.
    split; [exact Hnone|]. split; [exact Hrequests|].
    rewrite Hsleeps. vm_compute. reflexivity.
Defined.

(** X2: when the next [k] replies are failures, with [k < retry_count],
    and the one after them is a 200, [get_page] returns the parsed body
    of that reply after exactly [k + 1] requests and [k] backoff sleeps,
    those of attempts 0 to [k - 1], and asks for nothing more. *)
Theorem X2_get_page_stops_at_first_accepted_reply
  (urljoin : string -> string -> string) (BeautifulSoup : string -> node)
  (base_url url body : string) (retry_count k : nat) (w : world) :
  let u := urljoin base_url url in
  let run := get_page urljoin BeautifulSoup base_url url retry_count w in
  (k < retry_count)%nat ->
  fails w u k ->
  body_of (network w (k + requests w)%nat u) = Some body ->
  run.1 = Some (BeautifulSoup body) /\
  requests run.2 = (S k + requests w)%nat /\
  gets (emitted w run.2) = repeat (EGet u) (S k) /\
  sleeps (emitted w run.2) = backoff_sleeps w 0 k /\
  draws run.2 = (k + draws w)%nat /\
  files run.2 = files w.
Proof.
  intros u run Hk Hfails Hbody. subst run.
  destruct (get_page_succeeds urljoin BeautifulSoup base_url url body
              retry_count k w Hk Hfails Hbody) as (evs & -> & Hsleeps & Hgets).
  cbn [fst snd]. by rewrite emitted_advance.
Qed.

Lemma X2_get_page_stops_at_first_accepted_reply_witness :
  let run := get_page Examples.join Examples.parse Examples.site "/" 5
               (Examples.flaky 0) in
  run.1 = Some Examples.document /\ requests run.2 = 3%nat.
Proof.
  intros run.
  destruct (X2_get_page_stops_at_first_accepted_reply
              Examples.join Examples.parse Examples.site "/" "page" 5 2
              (Examples.flaky 0))
    as (Hsoup & Hrequests & _).
  - lia.
  - intros i Hi. destruct i as [|[|i]]; [reflexivity|reflexivity|lia].
  - reflexivity.
  - done.
Defined.

(** X3: in every world [get_page] returns [None] exactly when the next
    [retry_count] replies are all failures.  It makes at most
    [retry_count] requests, all for its URL, and at least one when
    [retry_count > 0]; it sleeps once less than it requests, so never
    after its last request; it draws one random number per sleep, calls
    no API and writes no file. *)
Theorem X3_get_page_requests_and_sleeps
  (urljoin : string -> string -> string) (BeautifulSoup : string -> node)
  (base_url url : string) (retry_count : nat) (w : world) :
  let u := urljoin base_url url in
  let run := get_page urljoin BeautifulSoup base_url url retry_count w in
  (run.1 = None <-> fails w u retry_count) /\
  exists g,
    (g <= retry_count)%nat /\ (0 < retry_count -> 0 < g)%nat /\
    requests run.2 = (g + requests w)%nat /\
    gets (emitted w run.2) = repeat (EGet u) g /\
    length (sleeps (emitted w run.2)) = (g - 1)%nat /\
    draws run.2 = (g - 1 + draws w)%nat /\
    api_calls run.2 = api_calls w /\
    files run.2 = files w.
Proof.
  intros u run. subst run.
  destruct (first_accepted w u retry_count)
    as [(k & body & Hk & Hfails & Hbody)|Hfails].
  - destruct (get_page_succeeds urljoin BeautifulSoup base_url url body
                retry_count k w Hk Hfails Hbody) as (evs & -> & Hsleeps & Hgets).
    cbn [fst snd]. rewrite emitted_advance. split.
    + split; [done|]. intros Hall. specialize (Hall k Hk). fold u in Hbody.
      congruence.
    + exists (S k). rewrite Hsleeps. unfold backoff_sleeps.
      rewrite length_map, length_seq, requests_advance, draws_advance,
        api_calls_advance, files_advance.
      split; [lia|]. split; [lia|]. split; [done|]. split; [done|].
      split; [lia|]. split; [f_equal; lia|]. done.
  - destruct (get_page_exhausts urljoin BeautifulSoup base_url url retry_count w Hfails)
      as (evs & -> & Hsleeps & Hgets).
    cbn [fst snd]. rewrite emitted_advance. split; [done|].
    exists retry_count. rewrite Hsleeps. unfold backoff_sleeps.
    rewrite length_map, length_seq, requests_advance, draws_advance,
      api_calls_advance, files_advance.
    split; [lia|]. split; [lia|]. done.
Qed.

(** X4: with random numbers in [0, 1), the backoff sleeps of one call of
    [get_page] add up to at most [2^(retry_count - 1) - 1 +
    (retry_count - 1)] seconds: at most 5 seconds with the default of
    three attempts. *)
Theorem X4_get_page_total_backoff_is_bounded
  (urljoin : string -> string -> string) (BeautifulSoup : string -> node)
  (base_url url : string) (retry_count : nat) (w : world) :
  unit_interval (entropy w) ->
  (slept (emitted w (get_page urljoin BeautifulSoup base_url url retry_count w).2)
   <= inject_Z (2 ^ Z.of_nat (retry_count - 1) - 1 + Z.of_nat (retry_count - 1)))%Q.
Proof.
  intros Hunit.
  destruct (get_page_cost urljoin BeautifulSoup base_url url retry_count w Hunit)
    as (g & r & evs & -> & _ & Hslept).
  by rewrite emitted_advance.
Qed.

Lemma X4_get_page_total_backoff_is_bounded_witness :
  (slept (emitted (Examples.down (9 # 10))
            (get_page Examples.join Examples.parse Examples.site "/" 3
               (Examples.down (9 # 10))).2) <= 5)%Q.
Proof.
  apply (X4_get_page_total_backoff_is_bounded
           Examples.join Examples.parse Examples.site "/" 3 (Examples.down (9 # 10))).
  apply (unit_interval_const (9 # 10)); [discriminate | reflexivity].
Defined.

(** ** X5 and X6: scrape_search_results over all its pages *)

Section AllPages.

Variable urljoin : string -> string -> string.
Variable BeautifulSoup : string -> node.
Variable base_url : string.

Local Abbreviation page_records :=
  (fun body : string =>
     map (item_record urljoin base_url)
       (kept (select (BeautifulSoup body) div_search_result))).

Lemma slept_notices (notices : list event) :
  Forall (fun e => is_print e = true) notices -> slept notices = 0%Q.
Proof.
  induction 1 as [|e l He _ IH]; [reflexivity|].
  destruct e; try discriminate. exact IH.
Qed.

Lemma sleeps_notices (notices : list event) :
  Forall (fun e => is_print e = true) notices -> sleeps notices = [].
Proof.
  induction 1 as [|e l He _ IH]; [reflexivity|].
  destruct e; try discriminate. exact IH.
Qed.

Lemma skip_notices_print (items : list node) :
  Forall (fun e => is_print e = true)
    (map (fun _ : node => EPrint (MsgErrorParsingItem "href")) (skipped items)).
Proof. apply Forall_forall. intros e He. apply list_elem_of_fmap in He. by destruct He as (? & -> & _). Qed.

(** The loop when every remaining page is served at the first attempt. *)
Lemma scrape_pages_served (query : string) (pages n first : nat)
  (bodies : nat -> string) (all_results : list result_data) (w : world) :
  (first + n = pages)%nat ->
  serves urljoin BeautifulSoup base_url w query first n bodies ->
  exists evs,
    scrape_pages urljoin BeautifulSoup base_url query pages (S first) n
      all_results w =
    (all_results ++ flat_map (fun i => page_records (bodies i)) (seq first n),
     advance n 0 (n - 1) evs w) /\
    length (sleeps evs) = (n - 1)%nat.
Proof.
  revert first all_results w.
  induction n as [|n IH]; intros first all_results w Hpages Hserves.
  - exists []. cbn. by rewrite app_nil_r, advance_0.
  - rewrite scrape_pages_step. cbv zeta.
    destruct (Hserves 0%nat ltac:(lia)) as [Hbody Hresults].
    rewrite Nat.add_0_r in Hbody, Hresults. cbn [Nat.add] in Hbody.
    destruct (get_page_succeeds urljoin BeautifulSoup base_url
                (search_url query (S first)) (bodies first) 3 0 w
                ltac:(lia) ltac:(intros i Hi; lia) Hbody)
      as (evs0 & -> & Hsleeps0 & _).
    cbn [fst snd].
    destruct (select (BeautifulSoup (bodies first)) div_search_result)
      as [|item items] eqn:Hitems; [done|].
    change add_log with (advance 0 0 0). rewrite advance_advance. cbn [Nat.add].
    set (notices := map (fun _ : node => EPrint (MsgErrorParsingItem "href"))
                      (skipped (item :: items))).
    assert (Hnotices : sleeps notices = [])
      by apply sleeps_notices, skip_notices_print.
    unfold pause. destruct n as [|n].
    + replace (S first <? pages)%nat with false
        by (symmetry; apply Nat.ltb_ge; lia).
      cbn [scrape_pages seq flat_map]. rewrite ret_run, app_nil_r, Hitems.
      eexists. split; [reflexivity|].
      rewrite sleeps_app, Hsleeps0, Hnotices. reflexivity.
    + replace (S first <? pages)%nat with true
        by (symmetry; apply Nat.ltb_lt; lia).
      cbv zeta. rewrite advance_advance. cbn [Nat.add].
      match goal with |- context [scrape_pages _ _ _ _ _ _ _ ?acc ?w'] =>
        destruct (IH (S first) acc w') as (evs & -> & Hsleeps); [lia| |]
      end.
      * intros i Hi. rewrite network_advance, requests_advance.
        replace (i + (1 + requests w))%nat with (S i + requests w)%nat by lia.
        replace (S first + i)%nat with (first + S i)%nat by lia.
        apply Hserves. lia.
      * rewrite advance_advance. cbn [seq flat_map]. rewrite Hitems, <- app_assoc.
        replace (S n + 1)%nat with (S (S n)) by lia.
        replace (S n - 1 + 1)%nat with (S (S n) - 1)%nat by lia.
        eexists. split; [reflexivity|].
        rewrite !sleeps_app, !length_app, Hsleeps0, Hnotices, Hsleeps. cbn. lia.
Qed.

(** The loop over [n] pages that are served at the first attempt each,
    with more pages to go after them: it goes on from page [first + n +
    1] with the records of the [n] pages added to the list. *)
Lemma scrape_pages_served_more (query : string) (pages n m first : nat)
  (bodies : nat -> string) (all_results : list result_data) (w : world) :
  (first + n < pages)%nat ->
  serves urljoin BeautifulSoup base_url w query first n bodies ->
  exists evs,
    scrape_pages urljoin BeautifulSoup base_url query pages (S first) (n + m)
      all_results w =
    scrape_pages urljoin BeautifulSoup base_url query pages (S (first + n)) m
      (all_results ++ flat_map (fun i => page_records (bodies i)) (seq first n))
      (advance n 0 n evs w).
Proof.
  revert first all_results w.
  induction n as [|n IH]; intros first all_results w Hpages Hserves.
  - exists []. cbn [Nat.add seq flat_map].
    by rewrite app_nil_r, advance_0, Nat.add_0_r.
  - cbn [Nat.add]. rewrite scrape_pages_step. cbv zeta.
    destruct (Hserves 0%nat ltac:(lia)) as [Hbody Hresults].
    rewrite Nat.add_0_r in Hbody, Hresults. cbn [Nat.add] in Hbody.
    destruct (get_page_succeeds urljoin BeautifulSoup base_url
                (search_url query (S first)) (bodies first) 3 0 w
                ltac:(lia) ltac:(intros i Hi; lia) Hbody)
      as (evs0 & -> & _ & _).
    cbn [fst snd].
    destruct (select (BeautifulSoup (bodies first)) div_search_result)
      as [|item items] eqn:Hitems; [done|].
    change add_log with (advance 0 0 0). rewrite advance_advance. cbn [Nat.add].
    unfold pause.
    replace (S first <? pages)%nat with true
      by (symmetry; apply Nat.ltb_lt; lia).
    cbv zeta. rewrite advance_advance. cbn [Nat.add].
    match goal with |- context [scrape_pages _ _ _ _ _ _ (n + m) ?acc ?w'] =>
      destruct (IH (S first) acc w') as (evs & ->); [lia| |]
    end.
    + intros i Hi. rewrite network_advance, requests_advance.
      replace (i + (1 + requests w))%nat with (S i + requests w)%nat by lia.
      replace (S first + i)%nat with (first + S i)%nat by lia.
      apply Hserves. lia.
    + rewrite advance_advance. cbn [seq flat_map]. rewrite Hitems, <- app_assoc.
      replace (S first + n)%nat with (first + S n)%nat by lia.
      replace (n + 1)%nat with (S n) by lia.
      eexists. reflexivity.
Qed.

(** What a run of the loop costs at most: three requests a page, and the
    seconds of two backoffs a page and of one pause between pages. *)
Lemma scrape_pages_cost (query : string) (pages n page : nat)
  (all_results : list result_data) (w : world) :
  unit_interval (entropy w) ->
  (page + n = S pages)%nat ->
  exists g r evs,
    (scrape_pages urljoin BeautifulSoup base_url query pages page n
       all_results w).2 = advance g 0 r evs w /\
    (g <= 3 * n)%nat /\
    (slept evs <= inject_Z (Z.max 0 (10 * Z.of_nat n - 5)))%Q.
Proof.
  revert page all_results w.
  induction n as [|n IH]; intros page all_results w Hunit Hpages.
  - exists 0%nat, 0%nat, []. cbn. rewrite advance_0. split; [done|]. split; [lia|].
    discriminate.
  - rewrite scrape_pages_step. cbv zeta.
    destruct (get_page_cost urljoin BeautifulSoup base_url (search_url query page)
                3 w Hunit) as (g0 & r0 & evs0 & Hrun0 & Hg0 & Hslept0).
    change (inject_Z (2 ^ Z.of_nat (3 - 1) - 1 + Z.of_nat (3 - 1))) with 5%Q
      in Hslept0.
    rewrite Hrun0.
    assert (Hbound : (5 <= inject_Z (Z.max 0 (10 * Z.of_nat (S n) - 5)))%Q).
    { change 5%Q with (inject_Z 5). rewrite <- Zle_Qle. lia. }
    destruct (get_page urljoin BeautifulSoup base_url (search_url query page) 3 w).1
      as [soup|].
    2:{ exists g0, r0, evs0. split; [done|]. split; [lia|]. lra. }
    destruct (select soup div_search_result) as [|item items].
    { change add_log with (advance 0 0 0). rewrite advance_advance.
      do 3 eexists. split; [reflexivity|]. split; [lia|].
      rewrite slept_app. cbn [slept]. lra. }
    change add_log with (advance 0 0 0). rewrite advance_advance. cbn [Nat.add].
    set (notices := map (fun _ : node => EPrint (MsgErrorParsingItem "href"))
                      (skipped (item :: items))).
    assert (Hnotices : slept notices = 0%Q)
      by apply slept_notices, skip_notices_print.
    unfold pause. destruct (page <? pages)%nat eqn:Hlast.
    + apply Nat.ltb_lt in Hlast. cbv zeta. rewrite advance_advance. cbn [Nat.add].
      match goal with |- context [scrape_pages _ _ _ _ _ _ _ ?acc ?w'] =>
        destruct (IH (S page) acc w') as (g & r & evs & -> & Hg & Hslept);
          [done|lia|]
      end.
      rewrite advance_advance. do 3 eexists. split; [reflexivity|]. split; [lia|].
      rewrite !slept_app, Hnotices. cbn [slept]. unfold uniform_in.
      rewrite entropy_advance.
      destruct (Hunit (draws (advance g0 0 r0 (evs0 ++ notices) w))) as [H0 H1].
      assert (Hn : (inject_Z (Z.max 0 (10 * Z.of_nat n - 5)) + 10
                    <= inject_Z (Z.max 0 (10 * Z.of_nat (S n) - 5)))%Q).
      { change 10%Q with (inject_Z 10). rewrite <- inject_Z_plus, <- Zle_Qle. lia. }
      lra.
    + apply Nat.ltb_ge in Hlast. assert (n = 0)%nat as -> by lia.
      cbn [scrape_pages]. rewrite ret_run. cbn [snd].
      do 3 eexists. split; [reflexivity|]. split; [lia|].
      rewrite slept_app, Hnotices. lra.
Qed.

End AllPages.

(** X5: when the network serves each of the [pages] pages at the first
    attempt, with at least one search result on each, the run returns
    the records of page 1, then those of page 2, and so on, each page's
    in document order; it makes exactly [pages] requests and sleeps
    exactly [pages - 1] times, once between two pages. *)
Theorem X5_search_returns_all_pages_in_order
  (urljoin : string -> string -> string) (BeautifulSoup : string -> node)
  (base_url query : string) (pages : nat) (bodies : nat -> string) (w : world) :
  let run := scrape_search_results urljoin BeautifulSoup base_url query pages w in
  serves urljoin BeautifulSoup base_url w query 0 pages bodies ->
  run.1 = flat_map (fun i => map (item_record urljoin base_url)
                               (kept (select (BeautifulSoup (bodies i))
                                        div_search_result)))
            (seq 0 pages) /\
  requests run.2 = (pages + requests w)%nat /\
  length (sleeps (emitted w run.2)) = (pages - 1)%nat /\
  draws run.2 = (pages - 1 + draws w)%nat.
Proof.
  intros run Hserves. subst run. unfold scrape_search_results.
  destruct (scrape_pages_served urljoin BeautifulSoup base_url query pages pages 0
              bodies [] w eq_refl Hserves) as (evs & -> & Hsleeps).
  cbn [fst snd app]. by rewrite emitted_advance.
Qed.

Lemma X5_search_returns_all_pages_in_order_witness :
  let run := scrape_search_results Examples.join Examples.parse Examples.site
               "ssh" 2 (Examples.calm (1 # 2)) in
  map title run.1 = ["One"; "Three"; "One"; "Three"] /\ requests run.2 = 2%nat.
Proof.
  intros run.
  destruct (X5_search_returns_all_pages_in_order
              Examples.join Examples.parse Examples.site "ssh" 2
              (fun _ => "page") (Examples.calm (1 # 2)))
    as (Hrecords & Hrequests & _).
  - intros i _. split; [reflexivity|]. vm_compute. discriminate.
  - fold run in Hrecords, Hrequests. split; [|exact Hrequests].
    rewrite Hrecords. vm_compute. reflexivity.
Defined.

(** X6: with random numbers in [0, 1), a run of [scrape_search_results]
    over [pages] pages makes at most [3 * pages] requests and sleeps at
    most [10 * pages - 5] seconds in all (nothing for [pages = 0]),
    backoffs and pauses together; it calls no API and writes no file. *)
Theorem X6_search_cost_is_bounded
  (urljoin : string -> string -> string) (BeautifulSoup : string -> node)
  (base_url query : string) (pages : nat) (w : world) :
  let run := scrape_search_results urljoin BeautifulSoup base_url query pages w in
  unit_interval (entropy w) ->
  (requests run.2 <= 3 * pages + requests w)%nat /\
  (slept (emitted w run.2) <= inject_Z (Z.max 0 (10 * Z.of_nat pages - 5)))%Q /\
  api_calls run.2 = api_calls w /\
  files run.2 = files w.
Proof.
  intros run Hunit. subst run. unfold scrape_search_results.
  destruct (scrape_pages_cost urljoin BeautifulSoup base_url query pages pages 1
              [] w Hunit eq_refl) as (g & r & evs & -> & Hg & Hslept).
  rewrite emitted_advance, requests_advance. split; [lia|]. by split.
Qed.

Lemma X6_search_cost_is_bounded_witness :
  let run := scrape_search_results Examples.join Examples.parse Examples.site
               "ssh" 3 (Examples.down (9 # 10)) in
  (requests run.2 <= 9)%nat /\
  (slept (emitted (Examples.down (9 # 10)) run.2) <= 25)%Q.
Proof.
  intros run.
  destruct (X6_search_cost_is_bounded Examples.join Examples.parse Examples.site
              "ssh" 3 (Examples.down (9 # 10)))
    as (Hrequests & Hslept & _).
  - apply (unit_interval_const (9 # 10)); [discriminate | reflexivity].
  - split; [exact Hrequests | exact Hslept].
Defined.

(** ** X7 and X8: scrape_service_details *)

Lemma table_rows_fold (rows : list node) (details : gmap string string) :
  LeakIXApp.table_rows rows details =
  foldl (fun m kv => <[kv.1 := kv.2]> m) details (omap row_pair rows).
Proof.
  revert details. induction rows as [|row rows IH]; intros details; [reflexivity|].
  cbn [LeakIXApp.table_rows].
  change (omap row_pair (row :: rows)) with
    (match row_pair row with
     | Some kv => kv :: omap row_pair rows
     | None => omap row_pair rows
     end).
  unfold row_pair at 1.
  destruct (select row LeakIXApp.td) as [|cell0 [|cell1 cells]]; cbn; apply IH.
Qed.

Section ServiceDetails.

Variable urljoin : string -> string -> string.
Variable BeautifulSoup : string -> node.
Variable base_url : string.

Local Abbreviation scrape_service_details :=
  (LeakIXApp.scrape_service_details urljoin BeautifulSoup base_url).

(** What [scrape_service_details] returns for the document it got. *)
Lemma scrape_service_details_run (service_url : string) (w : world) :
  scrape_service_details service_url w =
  (match (get_page urljoin BeautifulSoup base_url service_url 3 w).1 with
   | None => ∅
   | Some soup =>
       foldl (fun m kv => <[kv.1 := kv.2]> m)
         (<["title" := text_or_NA (select_one soup LeakIXApp.h1_service_title)]>
            (<["url" := service_url]> ∅))
         (table_pairs soup)
   end,
   (get_page urljoin BeautifulSoup base_url service_url 3 w).2).
Proof.
  unfold LeakIXApp.scrape_service_details. rewrite bind_run.
  destruct (get_page urljoin BeautifulSoup base_url service_url 3 w).1 as [soup|];
    [|reflexivity].
  cbv zeta. unfold table_pairs.
  destruct (select_one soup LeakIXApp.table_info_table) as [info_table|];
    [|reflexivity].
  rewrite ret_run. by rewrite table_rows_fold.
Qed.

End ServiceDetails.

(** X7: when the page of a service is fetched, the dictionary of
    [scrape_service_details] holds [value] under [key] exactly when the
    last row of the first info table with that key text (among the rows
    with two cells at least) has that value text, or no such row has
    that key and the pair is the service URL under ["url"] or the title
    (["N/A"] without a title element) under ["title"].  So a row keyed
    ["url"] or ["title"] replaces the entry of that name; rows with
    fewer than two cells add nothing. *)
Theorem X7_service_details_entries
  (urljoin : string -> string -> string) (BeautifulSoup : string -> node)
  (base_url service_url : string) (w w' : world) (soup : node)
  (key value : string) :
  let run := LeakIXApp.scrape_service_details urljoin BeautifulSoup base_url
               service_url w in
  get_page urljoin BeautifulSoup base_url service_url 3 w = (Some soup, w') ->
  run.2 = w' /\
  (run.1 !! key = Some value <->
   (exists before after,
      table_pairs soup = before ++ (key, value) :: after /\ key ∉ after.*1) \/
   ((key ∉ (table_pairs soup).*1) /\
    ((key = "url" /\ value = service_url) \/
     (key = "title" /\
      value = text_or_NA (select_one soup LeakIXApp.h1_service_title))))).
Proof.
  intros run Hget. subst run. rewrite scrape_service_details_run, Hget.
  cbn [fst snd]. split; [reflexivity|].
  rewrite lookup_foldl_insert.
  apply or_iff_compat_l, and_iff_compat_l.
  destruct (decide (key = "title")) as [->|Htitle].
  - rewrite lookup_insert_eq. split.
    + intros [= <-]. right. done.
    + intros [[? _]|[_ ->]]; done.
  - rewrite lookup_insert_ne by done.
    destruct (decide (key = "url")) as [->|Hurl].
    + rewrite lookup_insert_eq. split.
      * intros [= <-]. left. done.
      * intros [[_ ->]|[? _]]; done.
    + rewrite lookup_insert_ne, lookup_empty by done. split; [done|].
      intros [[? _]|[? _]]; done.
Qed.

Lemma X7_service_details_entries_witness :
  (LeakIXApp.scrape_service_details Examples.join Examples.parse_service
     Examples.site "/host/1" (Examples.calm 0)).1 !! "url" =
  Some "redis://10.0.0.1".
Proof.
  apply (proj2 (X7_service_details_entries Examples.join Examples.parse_service
                  Examples.site "/host/1" (Examples.calm 0) _ Examples.service_page
                  "url" "redis://10.0.0.1" eq_refl)).
  left. exists [("port", "6379")], []. split.
  - vm_compute. reflexivity.
  - apply not_elem_of_nil.
Defined.

Lemma foldl_insert_keeps_key (pairs : list (string * string))
  (m : gmap string string) (key : string) :
  is_Some (m !! key) ->
  is_Some (foldl (fun m kv => <[kv.1 := kv.2]> m) m pairs !! key).
Proof.
  revert m. induction pairs as [|[k v] pairs IH]; intros m Hm; [done|].
  cbn. apply IH. destruct (decide (k = key)) as [->|Hne].
  - rewrite lookup_insert_eq. by eexists.
  - by rewrite lookup_insert_ne.
Qed.

Lemma get_page_none_iff
  (urljoin : string -> string -> string) (BeautifulSoup : string -> node)
  (base_url url : string) (retry_count : nat) (w : world) :
  (get_page urljoin BeautifulSoup base_url url retry_count w).1 = None <->
  fails w (urljoin base_url url) retry_count.
Proof.
  destruct (first_accepted w (urljoin base_url url) retry_count)
    as [(k & body & Hk & Hfails & Hbody)|Hfails].
  - destruct (get_page_succeeds urljoin BeautifulSoup base_url url body
                retry_count k w Hk Hfails Hbody) as (evs & -> & _).
    split; [done|]. intros Hall. specialize (Hall k Hk). congruence.
  - by destruct (get_page_exhausts urljoin BeautifulSoup base_url url retry_count w
                   Hfails) as (evs & -> & _).
Qed.

(** X8: [scrape_service_details] returns the empty dictionary exactly
    when the fetch fails, that is when the next three replies for the
    URL are all failures; every other result has the keys ["url"] and
    ["title"].  Beside the fetch it has no effect. *)
Theorem X8_service_details_empty_iff_fetch_fails
  (urljoin : string -> string -> string) (BeautifulSoup : string -> node)
  (base_url service_url : string) (w : world) :
  let run := LeakIXApp.scrape_service_details urljoin BeautifulSoup base_url
               service_url w in
  (run.1 = ∅ <-> fails w (urljoin base_url service_url) 3) /\
  (run.1 <> ∅ -> is_Some (run.1 !! "url") /\ is_Some (run.1 !! "title")) /\
  run.2 = (get_page urljoin BeautifulSoup base_url service_url 3 w).2.
Proof.
  intros run. subst run. rewrite scrape_service_details_run. cbn [fst snd].
  rewrite <- (get_page_none_iff urljoin BeautifulSoup).
  destruct (get_page urljoin BeautifulSoup base_url service_url 3 w).1 as [soup|].
  - assert (Hkeys : forall key, key = "url" \/ key = "title" ->
              is_Some (foldl (fun m kv => <[kv.1 := kv.2]> m)
                (<["title" := text_or_NA (select_one soup LeakIXApp.h1_service_title)]>
                   (<["url" := service_url]> (∅ : gmap string string)))
                (table_pairs soup) !! key)).
    { intros key Hkey. apply foldl_insert_keeps_key.
      destruct Hkey as [-> | ->].
      - rewrite lookup_insert_ne, lookup_insert_eq by done. by eexists.
      - rewrite lookup_insert_eq. by eexists. }
    split; [|split; [|done]].
    + split; [|done]. intros Hempty.
      destruct (Hkeys "url" ltac:(by left)) as [v Hv].
      rewrite Hempty, lookup_empty in Hv. done.
    + intros _. split; apply Hkeys; [by left | by right].
  - split; [done|]. split; [|done]. intros H. done.
Qed.

(** ** X9 to X11: search_tweets in any world *)

(** The rate-limit signals at the start of a run: [k] of them, and then
    either another outcome or, from the sixth call on, anything. *)
Lemma first_unlimited (w : world) (request : Tweepy.SearchRequest) (n : nat) :
  exists k, (k <= n)%nat /\ rate_limited w request k /\
            ((k < n)%nat ->
             twitter w (k + api_calls w)%nat request <> Tweepy.TooManyRequests).
Proof.
  induction n as [|n (k & Hk & Hlimited & Hnext)].
  - exists 0%nat. split; [lia|]. split; [|lia]. intros i Hi. lia.
  - destruct (decide (k = n)) as [->|Hlt].
    + destruct (twitter w (n + api_calls w)%nat request) as [response| |e] eqn:Hn.
      * exists n. split; [lia|]. split; [done|]. intros _. congruence.
      * exists (S n). split; [lia|]. split; [|lia].
        intros i Hi. destruct (decide (i = n)) as [->|]; [done|].
        apply Hlimited. lia.
      * exists n. split; [lia|]. split; [done|]. intros _. congruence.
    + exists k. split; [lia|]. split; [done|]. intros _. apply Hnext. lia.
Qed.

(** An iteration that does not wait ends the loop. *)
Lemma search_loop_ends (fuel : nat) (request : Tweepy.SearchRequest)
  (retry_count : nat) (retry_delay : Z) (w : world) :
  (retry_count <= Twitter.max_retries)%nat ->
  ((retry_count < Twitter.max_retries)%nat ->
   twitter w (api_calls w) request <> Tweepy.TooManyRequests) ->
  exists tail,
    Twitter.search_loop (S fuel) request retry_count retry_delay [] w =
    (Some (harvest (twitter w (api_calls w) request)),
     advance 0 1 0 (ESearch request :: tail) w) /\
    Forall (fun e => is_print e = true) tail.
Proof.
  intros Hbudget Hnext. rewrite search_loop_step.
  replace (retry_count <=? Twitter.max_retries)%nat with true
    by (symmetry; by apply Nat.leb_le).
  destruct (twitter w (api_calls w) request) as [response| |e]; cbn [harvest].
  - destruct (Tweepy.data response) as [[|tweet tweets]|]; cbn [default map app];
      eexists; (split; [reflexivity|]); by repeat constructor.
  - destruct (retry_count <? Twitter.max_retries)%nat eqn:Hlt.
    + apply Nat.ltb_lt in Hlt. by destruct (Hnext Hlt).
    + eexists. split; [reflexivity|]. by repeat constructor.
  - eexists. split; [reflexivity|]. by repeat constructor.
Qed.

(** Every run of [search_tweets]: [k] waits, five at most, then one more
    request, whose outcome decides the result, and prints only. *)
Lemma search_tweets_run (query : string) (max_results : Z)
  (start_time end_time : option string) (w : world) :
  let request :=
    Tweepy.Build_SearchRequest query (Z.min max_results 100) start_time end_time in
  exists k tail,
    (k <= 5)%nat /\ rate_limited w request k /\
    Twitter.search_tweets query max_results start_time end_time w =
      (Some (harvest (twitter w (k + api_calls w)%nat request)),
       advance 0 (S k) 0 (waits request 60 k ++ ESearch request :: tail) w) /\
    Forall (fun e => is_print e = true) tail.
Proof.
  intros request. unfold Twitter.search_tweets. fold request.
  destruct (first_unlimited w request 5) as (k & Hk & Hlimited & Hnext).
  replace (Twitter.max_retries + 2)%nat with (k + S (6 - k))%nat
    by (unfold Twitter.max_retries; lia).
  rewrite search_loop_waits by (unfold Twitter.max_retries; done || lia).
  match goal with |- context [Twitter.search_loop (S ?f) _ ?c ?d [] ?w'] =>
    destruct (search_loop_ends f request c d w') as (tail & Hrun & Htail)
  end.
  - unfold Twitter.max_retries. lia.
  - rewrite twitter_advance, api_calls_advance. unfold Twitter.max_retries.
    intros Hlt. apply Hnext. lia.
  - rewrite twitter_advance, api_calls_advance in Hrun.
    exists k, tail. split; [done|]. split; [done|]. split; [|done].
    rewrite Hrun, advance_advance. reflexivity.
Qed.

Lemma waits_sleeps (request : Tweepy.SearchRequest) (k : nat) :
  (k <= 5)%nat ->
  sleeps (waits request 60 k) =
    map (fun i => ESleep (inject_Z (60 * 2 ^ Z.of_nat i))) (seq 0 k) /\
  List.filter is_search (waits request 60 k) = repeat (ESearch request) k /\
  (slept (waits request 60 k) <= 1860)%Q.
Proof.
  intros Hk.
  assert (Hcases : (k = 0 \/ k = 1 \/ k = 2 \/ k = 3 \/ k = 4 \/ k = 5)%nat) by lia.
  destruct Hcases as [-> | [-> | [-> | [-> | [-> | ->]]]]];
    (split; [reflexivity|]); (split; [reflexivity|]); vm_compute; discriminate.
Qed.

(** X9: in every world [search_tweets] calls the API between one and six
    times, always with the same request, whose size is [min(max_results,
    100)] and so never above 100.  Before each call but the first it
    sleeps: 60, 120, 240, 480 and 960 seconds at most, 1860 seconds in
    all.  It makes no HTTP request, draws no random number and writes no
    file. *)
Theorem X9_search_tweets_calls_and_waits (query : string) (max_results : Z)
  (start_time end_time : option string) (w : world) :
  let request :=
    Tweepy.Build_SearchRequest query (Z.min max_results 100) start_time end_time in
  let run := Twitter.search_tweets query max_results start_time end_time w in
  (Tweepy.max_results request <= 100)%Z /\
  exists k,
    (k <= 5)%nat /\
    api_calls run.2 = (S k + api_calls w)%nat /\
    List.filter is_search (emitted w run.2) = repeat (ESearch request) (S k) /\
    sleeps (emitted w run.2) =
      map (fun i => ESleep (inject_Z (60 * 2 ^ Z.of_nat i))) (seq 0 k) /\
    (slept (emitted w run.2) <= 1860)%Q /\
    requests run.2 = requests w /\
    draws run.2 = draws w /\
    files run.2 = files w.
Proof.
  intros request run. subst run. split; [cbn; lia|].
  destruct (search_tweets_run query max_results start_time end_time w)
    as (k & tail & Hk & _ & -> & Htail).
  fold request. cbn [snd]. rewrite emitted_advance.
  destruct (waits_sleeps request k Hk) as (Hsleeps & Hsearches & Hslept).
  exists k. split; [done|]. split; [done|]. split; [|split; [|split]].
  - rewrite List.filter_app, Hsearches. cbn [List.filter is_search].
    replace (List.filter is_search tail) with (@nil event).
    + rewrite <- repeat_cons. reflexivity.
    + symmetry. clear -Htail. induction Htail as [|e l He _ IH]; [reflexivity|].
      destruct e; try discriminate. exact IH.
  - rewrite sleeps_app, Hsleeps. cbn [sleeps List.filter is_sleep].
    fold (sleeps tail). rewrite (sleeps_notices tail Htail). by rewrite app_nil_r.
  - rewrite slept_app. cbn [slept]. rewrite (slept_notices tail Htail). lra.
  - done.
Qed.

(** X10: when the first [k] calls, five at most, are rate limited and
    the next one answers, [search_tweets] returns one dictionary per
    tweet of that answer, in the order of the answer, with the
    identifier, text, date, language and the four counts of the tweet;
    no dictionary at all when the answer has no data.  The waits lose
    and repeat nothing. *)
Theorem X10_search_tweets_returns_the_answer
  (query : string) (max_results : Z) (start_time end_time : option string)
  (k : nat) (response : Tweepy.Response) (w : world) :
  let request :=
    Tweepy.Build_SearchRequest query (Z.min max_results 100) start_time end_time in
  let run := Twitter.search_tweets query max_results start_time end_time w in
  let tweets := default [] (Tweepy.data response) in
  (k <= 5)%nat ->
  rate_limited w request k ->
  twitter w (k + api_calls w)%nat request = Tweepy.Ok response ->
  exists found,
    run.1 = Some found /\
    found = map (Twitter.tweet_data_of (Twitter.users_of response)) tweets /\
    map Twitter.id found = map Tweepy.id tweets /\
    map Twitter.text found = map Tweepy.text tweets /\
    map Twitter.created_at found = map Tweepy.created_at tweets /\
    map Twitter.lang found = map Tweepy.lang tweets /\
    map Twitter.like_count found =
      map (fun t => Tweepy.like_count (Tweepy.public_metrics t)) tweets /\
    api_calls run.2 = (S k + api_calls w)%nat.
Proof.
  intros request run tweets Hk Hlimited Hanswer. subst run.
  unfold Twitter.search_tweets. fold request.
  replace (Twitter.max_retries + 2)%nat with (k + S (6 - k))%nat
    by (unfold Twitter.max_retries; lia).
  rewrite search_loop_waits by (unfold Twitter.max_retries; done || lia).
  match goal with |- context [Twitter.search_loop (S ?f) _ ?c ?d [] ?w'] =>
    destruct (search_loop_ends f request c d w') as (tail & -> & _)
  end.
  - unfold Twitter.max_retries. lia.
  - rewrite twitter_advance, api_calls_advance, Hanswer. done.
  - rewrite twitter_advance, api_calls_advance, Hanswer. cbn [fst snd harvest].
    fold tweets. rewrite !api_calls_advance.
    eexists. split; [reflexivity|]. split; [reflexivity|].
    rewrite !map_map. repeat split; reflexivity || lia.
Qed.

Lemma X10_search_tweets_returns_the_answer_witness :
  let metrics := Tweepy.Build_PublicMetrics 1 2 3 4 in
  let tweet := Tweepy.Build_Tweet 11 "hello" (Some 7%Z) "2024-05-01" metrics None in
  let response := Tweepy.Build_Response (Some [tweet]) None in
  let w := World (fun _ _ => Requests.RequestException "unused") 0
             (fun n _ => match n with
                         | 0%nat => Tweepy.TooManyRequests
                         | _ => Tweepy.Ok response
                         end) 0
             (fun _ => 0%Q) 0 [] ∅ in
  exists found,
    (Twitter.search_tweets "leak" 500 None None w).1 = Some found /\
    map Twitter.id found = [11%Z].
Proof.
  intros metrics tweet response w.
  destruct (X10_search_tweets_returns_the_answer "leak" 500 None None 1
              response w)
    as (found & Hrun & _ & Hids & _).
  - lia.
  - intros i Hi. destruct i; [reflexivity|lia].
  - reflexivity.
  - by exists found.
Defined.

(** A left fold of insertions of users under their identifiers: the
    last user with an identifier decides. *)
Lemma lookup_users_fold (users : list Tweepy.User) (m : gmap Z Tweepy.User)
  (id : Z) (user : Tweepy.User) :
  (foldl (fun m user => <[Tweepy.user_id user := user]> m) m users) !! id =
    Some user <->
  (exists before after,
     users = before ++ user :: after /\ Tweepy.user_id user = id /\
     id ∉ map Tweepy.user_id after) \/
  ((id ∉ map Tweepy.user_id users) /\ m !! id = Some user).
Proof.
  revert m. induction users as [|u users IH]; intros m; cbn [foldl map].
  - split.
    + intros H. right. split; [apply not_elem_of_nil | done].
    + intros [(before & after & E & _)|[_ H]]; [by destruct before | done].
  - rewrite IH. split.
    + intros [(before & after & -> & Hid & Hlast)|[Hnot Hm]].
      * left. by exists (u :: before), after.
      * destruct (decide (Tweepy.user_id u = id)) as [Heq|Hne].
        -- rewrite <- Heq, lookup_insert_eq in Hm. injection Hm as ?; subst.
           left. by exists [], users.
        -- rewrite lookup_insert_ne in Hm by done.
           right. split; [|done]. rewrite not_elem_of_cons. done.
    + intros [(before & after & E & Hid & Hlast)|[Hnot Hm]].
      * destruct before as [|b before]; cbn in E.
        -- injection E as ? ?; subst. right. split; [done|].
           by rewrite lookup_insert_eq.
        -- injection E as ? ?; subst. left. by exists before, after.
      * rewrite not_elem_of_cons in Hnot. destruct Hnot as [Hne Hnot].
        right. split; [done|]. by rewrite lookup_insert_ne.
Qed.

(** An identifier that occurs among users has a last occurrence. *)
Lemma last_user (users : list Tweepy.User) (id : Z) :
  id ∈ map Tweepy.user_id users ->
  exists before user after,
    users = before ++ user :: after /\ Tweepy.user_id user = id /\
    id ∉ map Tweepy.user_id after.
Proof.
  induction users as [|u users IH]; intros Hin.
  - by apply elem_of_nil in Hin.
  - destruct (decide (id ∈ map Tweepy.user_id users)) as [Hlater|Hlast].
    + destruct (IH Hlater) as (before & user & after & -> & Hid & Hafter).
      by exists (u :: before), user, after.
    + cbn in Hin. apply elem_of_cons in Hin as [->|Hin]; [|done].
      by exists [], u, users.
Qed.

(** X11: the dictionary of a tweet gets author entries exactly when the
    author identifier of the tweet is that of a user included in the
    response, and then those of the last included user with that
    identifier: its [author_id] entry is the tweet's author identifier.
    Without the key ['users'], or for a tweet without author identifier,
    there are no author entries. *)
Theorem X11_author_entries_come_from_the_included_user
  (response : Tweepy.Response) (tweet : Tweepy.Tweet) :
  let record := Twitter.tweet_data_of (Twitter.users_of response) tweet in
  (forall a : Twitter.author_data,
     Twitter.author record = Some a <->
     exists before user after,
       included response = before ++ user :: after /\
       Tweepy.author_id tweet = Some (Tweepy.user_id user) /\
       (Tweepy.user_id user ∉ map Tweepy.user_id after) /\
       a = author_of user) /\
  (forall a : Twitter.author_data,
     Twitter.author record = Some a ->
     Tweepy.author_id tweet = Some (Twitter.author_id a)) /\
  (Twitter.author record = None <->
   forall user, user ∈ included response ->
                Tweepy.author_id tweet <> Some (Tweepy.user_id user)).
Proof.
  intros record.
  assert (Hlookup : forall id user,
            Twitter.users_of response !! id = Some user <->
            exists before after,
              included response = before ++ user :: after /\
              Tweepy.user_id user = id /\ id ∉ map Tweepy.user_id after).
  { intros id user. unfold Twitter.users_of, included.
    destruct (Tweepy.includes_users response) as [users|]; cbn [default].
    - rewrite lookup_users_fold. split.
      + intros [H|[_ H]]; [done | by rewrite lookup_empty in H].
      + intros H. by left.
    - rewrite lookup_empty. split; [done|].
      intros (before & after & E & _). by destruct before. }
  assert (Hauthor : forall a : Twitter.author_data,
     Twitter.author record = Some a <->
     exists before user after,
       included response = before ++ user :: after /\
       Tweepy.author_id tweet = Some (Tweepy.user_id user) /\
       (Tweepy.user_id user ∉ map Tweepy.user_id after) /\
       a = author_of user).
  { intros a. subst record. cbn [Twitter.tweet_data_of Twitter.author].
    destruct (Tweepy.author_id tweet) as [id|].
    - destruct (Twitter.users_of response !! id) as [user|] eqn:Huser.
      + apply Hlookup in Huser as (before & after & E & Hid & Hlast). split.
        * intros [= <-]. exists before, user, after. subst id.
          split; [done|]. split; [done|]. split; [done|]. reflexivity.
        * intros (before' & user' & after' & E' & [= Hid'] & Hlast' & ->).
          assert (Huser' : Twitter.users_of response !! id = Some user').
          { apply Hlookup. exists before', after'.
            split; [done|]. split; [by rewrite Hid'|]. by rewrite Hid'. }
          assert (Huser : Twitter.users_of response !! id = Some user).
          { apply Hlookup. by exists before, after. }
          rewrite Huser in Huser'. by injection Huser' as ->.
      + split; [done|].
        intros (before & user & after & E & [= Hid] & Hlast & _).
        assert (Hsome : Twitter.users_of response !! id = Some user).
        { apply Hlookup. exists before, after.
          split; [done|]. split; [by rewrite Hid|]. by rewrite Hid. }
        congruence.
    - split; [done|]. intros (? & ? & ? & _ & ? & _). done. }
  split; [exact Hauthor|]. split.
  - intros a Ha. apply Hauthor in Ha as (before & user & after & _ & -> & _ & ->).
    reflexivity.
  - split.
    + intros Hnone user Hin Hid.
      assert (Hids : Tweepy.user_id user ∈ map Tweepy.user_id (included response))
        by (apply list_elem_of_fmap; by exists user).
      destruct (last_user _ _ Hids) as (before & user' & after & E & Hid' & Hlast).
      assert (Hsome : Twitter.author record = Some (author_of user')).
      { apply Hauthor. exists before, user', after.
        split; [done|]. split; [by rewrite Hid'|].
        split; [by rewrite Hid'|]. reflexivity. }
      congruence.
    + intros Hnot. case_eq (Twitter.author record); [intros a Ha | done].
      apply Hauthor in Ha as (before & user & after & E & Hid & _).
      exfalso. apply (Hnot user); [|done].
      rewrite E. apply elem_of_app. right. apply elem_of_cons. by left.
Qed.

(** ** X12: saving twice *)

(** X12: saving writes the whole file anew: after a list is saved as
    JSON and another one as CSV under the same name, the file holds the
    CSV of the second list alone.  When the second list is empty the
    file is left as the first saving made it, and when both are empty
    as it was before.  No file of another name is touched.  This holds
    for the saving functions of both classes. *)
Theorem X12_saving_replaces_the_file (A : Type)
  (to_csv json_dump : list A -> string) (first second : list A)
  (filename other : string) (w : world) :
  let expected :=
    match second, first with
    | _ :: _, _ => Some (to_csv second)
    | [], _ :: _ => Some (json_dump first)
    | [], [] => files w !! filename
    end in
  let leakix :=
    (LeakIX.save_to_json A json_dump first filename;;
     LeakIX.save_to_csv A to_csv second filename)%world w in
  let twitter :=
    (Twitter.save_to_json A json_dump first filename;;
     Twitter.save_to_csv A to_csv second filename)%world w in
  other <> filename ->
  files leakix.2 !! filename = expected /\
  files twitter.2 !! filename = expected /\
  files leakix.2 !! other = files w !! other /\
  files twitter.2 !! other = files w !! other.
Proof.
  intros expected leakix twitter Hother. subst expected leakix twitter.
  destruct first as [|r1 first], second as [|r2 second]; cbn;
    rewrite ?lookup_insert_eq, ?lookup_insert_ne by done; done.
Qed.

Lemma X12_saving_replaces_the_file_witness :
  files ((LeakIX.save_to_json nat (fun _ => "[1, 2]") [1; 2]%nat "out";;
          LeakIX.save_to_csv nat (fun _ => "3") [] "out")%world
           (Examples.calm 0)).2 !! "out" = Some "[1, 2]".
Proof.
  apply (X12_saving_replaces_the_file nat (fun _ => "3") (fun _ => "[1, 2]")
           [1; 2]%nat [] "out" "other" (Examples.calm 0)).
  discriminate.
Defined.

(** ** X13 and X14: the command line of leakixscraper.py *)

Lemma app_bind_run {A B : Type} (m : App A) (k : A -> App B) (c : console) :
  app_bind m k c = k (m c).1 (m c).2.
Proof. unfold app_bind. destruct (m c); reflexivity. Qed.

Lemma lift_run {A : Type} (m : M A) (c : console) :
  lift m c = ((m (world_of c)).1, Console (m (world_of c)).2 (banners c)).
Proof. unfold lift. destruct (m (world_of c)); reflexivity. Qed.

Lemma say_run (b : banner) (c : console) :
  say b c = (tt, Console (world_of c)
                   (banners c ++ [(length (log (world_of c)), b)])).
Proof. reflexivity. Qed.

Section Frames.

Variable urljoin : string -> string -> string.
Variable BeautifulSoup : string -> node.
Variable base_url : string.

(** A call of [get_page] only asks, draws and logs. *)
Lemma get_page_frame (url : string) (retry_count : nat) (w : world) :
  exists g r evs,
    (get_page urljoin BeautifulSoup base_url url retry_count w).2 =
      advance g 0 r evs w /\
    (g <= retry_count)%nat.
Proof.
  destruct (first_accepted w (urljoin base_url url) retry_count)
    as [(k & body & Hk & Hfails & Hbody)|Hfails].
  - destruct (get_page_succeeds urljoin BeautifulSoup base_url url body
                retry_count k w Hk Hfails Hbody) as (evs & -> & _).
    exists (S k), k, evs. split; [done|lia].
  - destruct (get_page_exhausts urljoin BeautifulSoup base_url url retry_count w
                Hfails) as (evs & -> & _).
    exists retry_count, (retry_count - 1)%nat, evs. split; [done|lia].
Qed.

Lemma scrape_pages_frame (query : string) (pages n page : nat)
  (all_results : list result_data) (w : world) :
  exists g r evs,
    (scrape_pages urljoin BeautifulSoup base_url query pages page n
       all_results w).2 = advance g 0 r evs w /\
    (g <= 3 * n)%nat.
Proof.
  revert page all_results w.
  induction n as [|n IH]; intros page all_results w.
  - exists 0%nat, 0%nat, []. cbn. by rewrite advance_0.
  - rewrite scrape_pages_step. cbv zeta.
    destruct (get_page_frame (search_url query page) 3 w)
      as (g0 & r0 & evs0 & Hrun0 & Hg0).
    rewrite Hrun0.
    destruct (get_page urljoin BeautifulSoup base_url (search_url query page) 3 w).1
      as [soup|].
    2:{ exists g0, r0, evs0. split; [done|lia]. }
    destruct (select soup div_search_result) as [|item items].
    { change add_log with (advance 0 0 0). rewrite advance_advance.
      do 3 eexists. split; [reflexivity|lia]. }
    change add_log with (advance 0 0 0). rewrite advance_advance.
    assert (Hpause : forall w0, exists r1 evs1,
               pause pages page w0 = advance 0 0 r1 evs1 w0).
    { intros w0. unfold pause. destruct (page <? pages)%nat.
      - by do 2 eexists.
      - exists 0%nat, []. by rewrite advance_0. }
    match goal with |- context [pause pages page ?w0] =>
      destruct (Hpause w0) as (r1 & evs1 & ->)
    end.
    rewrite advance_advance.
    match goal with |- context [scrape_pages _ _ _ _ _ _ _ ?acc ?w'] =>
      destruct (IH (S page) acc w') as (g & r & evs & -> & Hg)
    end.
    rewrite advance_advance. do 3 eexists. split; [reflexivity|lia].
Qed.

Lemma scrape_leakix_homepage_frame (w : world) :
  exists g r evs,
    (scrape_leakix_homepage urljoin BeautifulSoup base_url w).2 =
      advance g 0 r evs w /\
    (g <= 3)%nat.
Proof.
  unfold scrape_leakix_homepage. rewrite bind_run.
  destruct (get_page_frame "/" 3 w) as (g & r & evs & Hrun & Hg). rewrite Hrun.
  destruct (get_page urljoin BeautifulSoup base_url "/" 3 w).1 as [soup|].
  - rewrite parse_cards_run. cbn [snd].
    change add_log with (advance 0 0 0). rewrite advance_advance.
    do 3 eexists. split; [reflexivity|lia].
  - by exists g, r, evs.
Qed.

Lemma scrape_service_details_frame (service_url : string) (w : world) :
  exists g r evs,
    (LeakIXApp.scrape_service_details urljoin BeautifulSoup base_url
       service_url w).2 = advance g 0 r evs w /\
    (g <= 3)%nat.
Proof.
  rewrite scrape_service_details_run. cbn [snd]. apply get_page_frame.
Qed.

End Frames.

Section LeakIXMain.

Variable urljoin : string -> string -> string.
Variable BeautifulSoup : string -> node.
Variable to_csv : list LeakIXApp.record -> string.
Variable json_dump : list LeakIXApp.record -> string.

Local Abbreviation main := (LeakIXApp.main urljoin BeautifulSoup to_csv json_dump).
Local Abbreviation save := (LeakIXApp.save to_csv json_dump).

(** The saving at the end of [main]: one printed line, and the output
    file when there is something to save. *)
Lemma leakix_save_run (a : LeakIXApp.args) (data : list LeakIXApp.record)
  (c : console) :
  exists m,
    (save a data c).2 =
    Console
      (World (network (world_of c)) (requests (world_of c))
         (twitter (world_of c)) (api_calls (world_of c))
         (entropy (world_of c)) (draws (world_of c))
         (log (world_of c) ++ [EPrint m])
         (match data with
          | [] => files (world_of c)
          | _ :: _ =>
              <[LeakIXApp.arg_output a :=
                  rendered to_csv json_dump (LeakIXApp.arg_format a) data]>
                (files (world_of c))
          end))
      (banners c).
Proof.
  unfold LeakIXApp.save, rendered.
  destruct (LeakIXApp.arg_format a), data as [|d data]; rewrite lift_run;
    eexists; reflexivity.
Qed.

(** Every run of [main]: a banner, the scraping of the chosen mode, the
    saving. *)
Lemma leakix_main_run (a : LeakIXApp.args) (c : console) :
  let w := world_of c in
  (exists b, (main a c).2 = Console w (banners c ++ [(length (log w), b)]) /\
             ((LeakIXApp.arg_mode a = LeakIXApp.Search /\
               LeakIXApp.given (LeakIXApp.arg_query a) = None) \/
              (LeakIXApp.arg_mode a = LeakIXApp.Details /\
               LeakIXApp.given (LeakIXApp.arg_url a) = None))) \/
  (exists b g r evs data,
     (g <= match LeakIXApp.arg_mode a with
           | LeakIXApp.Search => 3 * Z.to_nat (LeakIXApp.arg_pages a)
           | _ => 3
           end)%nat /\
     banners (main a c).2 = banners c ++ [(length (log w), b)] /\
     world_of (main a c).2 =
       World (network w) (g + requests w) (twitter w) (api_calls w)
         (entropy w) (r + draws w) (log w ++ evs)
         (match data with
          | [] => files w
          | _ :: _ =>
              <[LeakIXApp.arg_output a :=
                  rendered to_csv json_dump (LeakIXApp.arg_format a) data]>
                (files w)
          end) /\
     match LeakIXApp.arg_mode a with
     | LeakIXApp.Home =>
         data = map LeakIXApp.ServiceRecord
                  (scrape_leakix_homepage urljoin BeautifulSoup LeakIXApp.site w).1
     | LeakIXApp.Search =>
         exists query,
           LeakIXApp.given (LeakIXApp.arg_query a) = Some query /\
           data = map LeakIXApp.ResultRecord
                    (scrape_search_results urljoin BeautifulSoup LeakIXApp.site
                       query (Z.to_nat (LeakIXApp.arg_pages a)) w).1
     | LeakIXApp.Details =>
         exists url,
           LeakIXApp.given (LeakIXApp.arg_url a) = Some url /\
           data = [LeakIXApp.DetailsRecord
                     (LeakIXApp.scrape_service_details urljoin BeautifulSoup
                        LeakIXApp.site url w).1]
     end).
Proof.
  intros w. unfold LeakIXApp.main.
  destruct (LeakIXApp.arg_mode a) eqn:Hmode.
  - right. rewrite app_bind_run, say_run. cbn [fst snd].
    rewrite app_bind_run, lift_run. cbn [fst snd world_of banners]. fold w.
    destruct (scrape_leakix_homepage_frame urljoin BeautifulSoup LeakIXApp.site w)
      as (g & r & evs & Hrun & Hg).
    rewrite Hrun.
    match goal with |- context [save a ?data ?c0] =>
      destruct (leakix_save_run a data c0) as (m & ->); exists BannerScrapingHomepage, g, r, (evs ++ [EPrint m]), data
    end.
    cbn [world_of banners]. split; [cbv iota; lia|]. split; [done|]. split; [|done].
    unfold advance. cbn. by rewrite app_assoc.
  - destruct (LeakIXApp.given (LeakIXApp.arg_query a)) as [query|] eqn:Hquery.
    + right. rewrite app_bind_run, say_run. cbn [fst snd].
      rewrite app_bind_run, lift_run. cbn [fst snd world_of banners]. fold w.
      unfold scrape_search_results.
      destruct (scrape_pages_frame urljoin BeautifulSoup LeakIXApp.site query
                  (Z.to_nat (LeakIXApp.arg_pages a))
                  (Z.to_nat (LeakIXApp.arg_pages a)) 1 [] w)
        as (g & r & evs & Hrun & Hg).
      rewrite Hrun.
      match goal with |- context [save a ?data ?c0] =>
        destruct (leakix_save_run a data c0) as (m & ->);
          exists (BannerSearching query (LeakIXApp.arg_pages a)), g, r,
                 (evs ++ [EPrint m]), data
      end.
      cbn [world_of banners]. split; [cbv iota; lia|]. split; [done|]. split.
      * unfold advance. cbn. by rewrite app_assoc.
      * by exists query.
    + left. exists BannerQueryRequired. split; [reflexivity|]. by left.
  - destruct (LeakIXApp.given (LeakIXApp.arg_url a)) as [url|] eqn:Hurl.
    + right. rewrite app_bind_run, say_run. cbn [fst snd].
      rewrite app_bind_run, lift_run. cbn [fst snd world_of banners]. fold w.
      destruct (scrape_service_details_frame urljoin BeautifulSoup LeakIXApp.site
                  url w) as (g & r & evs & Hrun & Hg).
      rewrite Hrun.
      match goal with |- context [save a ?data ?c0] =>
        destruct (leakix_save_run a data c0) as (m & ->);
          exists (BannerScrapingDetails url), g, r, (evs ++ [EPrint m]), data
      end.
      cbn [world_of banners]. split; [cbv iota; lia|]. split; [done|]. split.
      * unfold advance. cbn. by rewrite app_assoc.
      * by exists url.
    + left. exists BannerUrlRequired. split; [reflexivity|]. by right.
Qed.

End LeakIXMain.

Section Down.

Variable urljoin : string -> string -> string.
Variable BeautifulSoup : string -> node.
Variable base_url : string.

(** Nothing is scraped from a site that does not answer. *)
Lemma scrape_leakix_homepage_down (w : world) :
  fails w (urljoin base_url "/") 3 ->
  (scrape_leakix_homepage urljoin BeautifulSoup base_url w).1 = [].
Proof.
  intros Hfails. unfold scrape_leakix_homepage. rewrite bind_run.
  apply (get_page_none_iff urljoin BeautifulSoup) in Hfails.
  by rewrite Hfails.
Qed.

Lemma scrape_search_results_down (query : string) (pages : nat) (w : world) :
  fails w (urljoin base_url (search_url query 1)) 3 ->
  (scrape_search_results urljoin BeautifulSoup base_url query pages w).1 = [].
Proof.
  intros Hfails. unfold scrape_search_results.
  destruct pages as [|pages]; [reflexivity|].
  rewrite scrape_pages_step. cbv zeta.
  apply (get_page_none_iff urljoin BeautifulSoup) in Hfails.
  by rewrite Hfails.
Qed.

Lemma scrape_service_details_down (service_url : string) (w : world) :
  fails w (urljoin base_url service_url) 3 ->
  (LeakIXApp.scrape_service_details urljoin BeautifulSoup base_url
     service_url w).1 = ∅.
Proof.
  intros Hfails. rewrite scrape_service_details_run. cbn [fst].
  apply (get_page_none_iff urljoin BeautifulSoup) in Hfails.
  by rewrite Hfails.
Qed.

End Down.

(** X13: when the site does not answer, the home and search modes of
    [main] write no file, but the details mode still writes the output
    file: it saves a list of one empty dictionary.  Without the URL it
    needs, the details mode writes nothing either. *)
Theorem X13_details_mode_saves_a_failed_fetch
  (urljoin : string -> string -> string) (BeautifulSoup : string -> node)
  (to_csv json_dump : list LeakIXApp.record -> string)
  (a : LeakIXApp.args) (c : console) :
  let w := world_of c in
  (forall u, fails w u 3) ->
  files (world_of (LeakIXApp.main urljoin BeautifulSoup to_csv json_dump a c).2) =
    match LeakIXApp.arg_mode a, LeakIXApp.given (LeakIXApp.arg_url a) with
    | LeakIXApp.Details, Some url =>
        <[LeakIXApp.arg_output a :=
            rendered to_csv json_dump (LeakIXApp.arg_format a)
              [LeakIXApp.DetailsRecord ∅]]> (files w)
    | _, _ => files w
    end.
Proof.
  intros w Hdown.
  destruct (leakix_main_run urljoin BeautifulSoup to_csv json_dump a c)
    as [(b & -> & [[-> _]|[-> ->]])|(b & g & r & evs & data & _ & _ & -> & Hdata)];
    [reflexivity|reflexivity|].
  fold w in Hdata. cbn [files].
  destruct (LeakIXApp.arg_mode a).
  - rewrite scrape_leakix_homepage_down in Hdata by apply Hdown. by subst data.
  - destruct Hdata as (query & _ & ->).
    by rewrite scrape_search_results_down by apply Hdown.
  - destruct Hdata as (url & -> & ->).
    by rewrite scrape_service_details_down by apply Hdown.
Qed.

Lemma X13_details_mode_saves_a_failed_fetch_witness :
  let a := LeakIXApp.Args LeakIXApp.Details None (Some "/host/1") 1
             "scraped_data.json" Json in
  files (world_of (LeakIXApp.main Examples.join Examples.parse
                     (fun _ => "csv") (fun _ => "[{}]") a
                     (Console (Examples.down 0) [])).2)
    !! "scraped_data.json" = Some "[{}]".
Proof.
  intros a.
  rewrite (X13_details_mode_saves_a_failed_fetch Examples.join Examples.parse
             (fun _ => "csv") (fun _ => "[{}]") a (Console (Examples.down 0) [])).
  - reflexivity.
  - intros u i _. reflexivity.
Defined.

(** X14: what a run of [main] of leakixscraper.py does at most.  It
    prints exactly one banner, before anything else; it makes at most
    three requests in the home and details modes, whatever the number
    of pages given, and at most three a page in the search mode; it
    calls no API, and touches no file but the output file, which it either
    leaves alone or replaces by the rendering of a list that is not
    empty.  In search mode without a query (none, or the empty one) and
    in details mode without a URL it does nothing but print. *)
Theorem X14_leakix_main_effects
  (urljoin : string -> string -> string) (BeautifulSoup : string -> node)
  (to_csv json_dump : list LeakIXApp.record -> string)
  (a : LeakIXApp.args) (c : console) :
  let run := LeakIXApp.main urljoin BeautifulSoup to_csv json_dump a c in
  let w := world_of c in
  let w' := world_of run.2 in
  (exists b, banners run.2 = banners c ++ [(length (log w), b)]) /\
  api_calls w' = api_calls w /\
  (requests w <= requests w')%nat /\
  (requests w' <=
   match LeakIXApp.arg_mode a with
   | LeakIXApp.Search => 3 * Z.to_nat (LeakIXApp.arg_pages a)
   | _ => 3
   end + requests w)%nat /\
  (files w' = files w \/
   exists data,
     data <> [] /\
     files w' =
       <[LeakIXApp.arg_output a :=
           rendered to_csv json_dump (LeakIXApp.arg_format a) data]> (files w)) /\
  (LeakIXApp.arg_mode a = LeakIXApp.Search ->
   LeakIXApp.given (LeakIXApp.arg_query a) = None -> w' = w) /\
  (LeakIXApp.arg_mode a = LeakIXApp.Details ->
   LeakIXApp.given (LeakIXApp.arg_url a) = None -> w' = w).
Proof.
  intros run w w'. subst run w'.
  destruct (leakix_main_run urljoin BeautifulSoup to_csv json_dump a c)
    as [(b & -> & _)|(b & g & r & evs & data & Hg & Hbanners & -> & Hdata)].
  - cbn [world_of banners]. fold w.
    split; [by exists b|]. split; [done|]. split; [done|]. split; [lia|].
    split; [by left|]. done.
  - fold w in Hdata, Hbanners |- *. cbn [api_calls requests files].
    split; [by exists b|]. split; [done|]. split; [lia|]. split; [lia|]. split.
    + destruct data as [|d data]; [by left|]. right. by exists (d :: data).
    + split; intros Hmode Hnone; rewrite Hmode in Hdata;
        destruct Hdata as (? & Hsome & _); congruence.
Qed.

(** ** X15: the command line of scraper.py *)

(** The saving at the end of [main] of scraper.py. *)
Lemma twitter_save_run (to_csv json_dump : list Twitter.tweet_data -> string)
  (f : format) (tweets : list Twitter.tweet_data) (filename : string)
  (w : world) :
  exists m,
    (match f with
     | Csv => Twitter.save_to_csv Twitter.tweet_data to_csv tweets filename
     | Json => Twitter.save_to_json Twitter.tweet_data json_dump tweets filename
     end w).2 =
    World (network w) (requests w) (twitter w) (api_calls w)
      (entropy w) (draws w) (log w ++ [EPrint m])
      (match tweets with
       | [] => files w
       | _ :: _ => <[filename := rendered to_csv json_dump f tweets]> (files w)
       end).
Proof.
  destruct f, tweets as [|tweet tweets]; eexists; reflexivity.
Qed.

Lemma filter_is_search_notices (notices : list event) :
  Forall (fun e => is_print e = true) notices ->
  List.filter is_search notices = [].
Proof.
  induction 1 as [|e l He _ IH]; [reflexivity|].
  destruct e; try discriminate. exact IH.
Qed.

(** X15: every run of [main] of scraper.py.  All its API calls ask for
    [min(count, 100)] tweets of the query, from [min(days, 7)] days
    before the moment [main] read the clock until that moment; there are
    between one and six of them.  The warning is printed exactly when
    the count is above 100.  The output file is written exactly when the
    last call gave at least one tweet, and then holds those tweets in
    the chosen format; the number of tweets is printed in any case, just
    before the one line of the saving function. *)
Theorem X15_twitter_main_asks_once_and_saves_what_it_got
  (to_csv json_dump : list Twitter.tweet_data -> string)
  (now : string) (days_before : string -> Z -> string)
  (a : TwitterApp.args) (c : console) :
  let run := TwitterApp.main to_csv json_dump now days_before a c in
  let w := world_of c in
  let w' := world_of run.2 in
  let request :=
    Tweepy.Build_SearchRequest (TwitterApp.arg_query a)
      (Z.min (TwitterApp.arg_count a) 100)
      (Some (days_before now (Z.min (TwitterApp.arg_days a) 7))) (Some now) in
  exists k n,
    let tweets := harvest (twitter w (k + api_calls w)%nat request) in
    (k <= 5)%nat /\
    rate_limited w request k /\
    List.filter is_search (emitted w w') = repeat (ESearch request) (S k) /\
    api_calls w' = (S k + api_calls w)%nat /\
    requests w' = requests w /\
    files w' =
      match tweets with
      | [] => files w
      | _ :: _ =>
          <[TwitterApp.arg_output a :=
              rendered to_csv json_dump (TwitterApp.arg_format a) tweets]>
            (files w)
      end /\
    banners run.2 =
      banners c ++
      (if (TwitterApp.arg_count a >? 100)%Z
       then [(length (log w), BannerCountWarning)] else []) ++
      [(length (log w), BannerSearchingTweets (TwitterApp.arg_query a));
       (n, BannerRetrieved (length tweets))] /\
    length (log w') = S n.
Proof.
  intros run w w' request. subst run w'.
  set (count := if (TwitterApp.arg_count a >? 100)%Z
                then 100%Z else TwitterApp.arg_count a).
  assert (Hcount : Z.min count 100 = Z.min (TwitterApp.arg_count a) 100).
  { subst count. destruct (Z.gtb_spec (TwitterApp.arg_count a) 100); lia. }
  destruct (search_tweets_run (TwitterApp.arg_query a) count
              (Some (days_before now (Z.min (TwitterApp.arg_days a) 7)))
              (Some now) w) as (k & tail & Hk & Hlimited & Hrun & Htail).
  cbv zeta in Hlimited, Hrun. rewrite Hcount in Hlimited, Hrun.
  fold request in Hlimited, Hrun.
  set (tweets := harvest (twitter w (k + api_calls w)%nat request)) in *.
  set (evs := waits request 60 k ++ ESearch request :: tail) in *.
  exists k, (length (log w ++ evs)).
  cbv zeta. fold tweets.
  split; [done|]. split; [done|].
  destruct (twitter_save_run to_csv json_dump (TwitterApp.arg_format a) tweets
              (TwitterApp.arg_output a) (advance 0 (S k) 0 evs w)) as (m & Hsave).
  assert (Hgoal :
    (TwitterApp.main to_csv json_dump now days_before a c).2 =
    Console
      (World (network w) (requests w) (twitter w) (S k + api_calls w)
         (entropy w) (draws w) ((log w ++ evs) ++ [EPrint m])
         (match tweets with
          | [] => files w
          | _ :: _ =>
              <[TwitterApp.arg_output a :=
                  rendered to_csv json_dump (TwitterApp.arg_format a) tweets]>
                (files w)
          end))
      (banners c ++
       (if (TwitterApp.arg_count a >? 100)%Z
        then [(length (log w), BannerCountWarning)] else []) ++
       [(length (log w), BannerSearchingTweets (TwitterApp.arg_query a));
        (length (log w ++ evs), BannerRetrieved (length tweets))])).
  { unfold TwitterApp.main, app_bind, say, app_ret.
    destruct (TwitterApp.arg_count a >? 100)%Z eqn:Hgt;
      cbn [world_of banners]; rewrite lift_run; cbn [world_of banners];
      fold w; subst count; rewrite Hrun; cbn [fst snd world_of banners];
      destruct (TwitterApp.arg_format a); rewrite lift_run;
      cbn [fst snd world_of banners]; cbn [rendered] in Hsave;
      rewrite Hsave;
      cbn [advance network requests twitter api_calls entropy draws log
             files Nat.add];
      rewrite <- ?app_assoc; reflexivity. }
  rewrite Hgoal. cbn [world_of banners api_calls requests files log].
  split.
  - unfold emitted. cbn [log]. rewrite <- app_assoc, drop_app_length.
    subst evs. rewrite !List.filter_app.
    destruct (waits_sleeps request k Hk) as (_ & Hsearches & _).
    rewrite Hsearches. cbn [List.filter is_search is_print app].
    rewrite (filter_is_search_notices tail Htail), app_nil_r.
    by rewrite <- repeat_cons.
  - split; [done|]. split; [done|]. split; [done|]. split; [done|].
    rewrite length_app. cbn [length]. lia.
Qed.

(** * C4: records survive a later failure *)

(** C4: a run that a failure ends returns exactly the records extracted
    before it.  A run of [scrape_search_results] over [pages] pages of
    which the first [n] are served, each with results, and whose pull
    of page [n + 1] then fails at all three attempts, returns the
    records of the pages 1 to [n], all of them and in order.  At every
    point of the loop, a pull that fails returns the list collected so
    far, and the result always starts with that list.  In
    [search_tweets] records come from the one answer that ends the run,
    so that a failure has nothing to discard: a run that ends with an
    API error after up to five waits, or with the sixth rate-limit
    signal in a row, returns the empty list; at every point of its
    loop, both failures return the list collected so far, and the
    loop, given the fuel of [search_tweets], always returns a list that
    starts with it. *)
Theorem C4_failure_keeps_collected_records
  (urljoin : string -> string -> string) (BeautifulSoup : string -> node)
  (base_url : string) :
  (forall (query : string) (pages n : nat) (bodies : nat -> string) (w : world),
     (n < pages)%nat ->
     serves urljoin BeautifulSoup base_url w query 0 n bodies ->
     (forall i, (i < 3)%nat ->
        body_of (network w (i + (n + requests w))%nat
                   (urljoin base_url (search_url query (S n)))) = None) ->
     (scrape_search_results urljoin BeautifulSoup base_url query pages w).1 =
       flat_map (fun i => map (item_record urljoin base_url)
                            (kept (select (BeautifulSoup (bodies i))
                                     div_search_result)))
         (seq 0 n)) /\
  (forall query pages page remaining all_results w,
     (get_page urljoin BeautifulSoup base_url (search_url query page) 3 w).1 = None ->
     scrape_pages urljoin BeautifulSoup base_url query pages page (S remaining)
       all_results w =
     (all_results,
      (get_page urljoin BeautifulSoup base_url (search_url query page) 3 w).2)) /\
  (forall query pages page remaining all_results w,
     exists more,
       (scrape_pages urljoin BeautifulSoup base_url query pages page remaining
          all_results w).1 = all_results ++ more) /\
  (forall (query : string) (max_results : Z) (start_time end_time : option string)
          (k : nat) (e : string) (w : world),
     let request :=
       Tweepy.Build_SearchRequest query (Z.min max_results 100)
         start_time end_time in
     (k <= 5)%nat ->
     rate_limited w request k ->
     twitter w (k + api_calls w)%nat request = Tweepy.TweepyException e ->
     (Twitter.search_tweets query max_results start_time end_time w).1 = Some []) /\
  (forall (query : string) (max_results : Z) (start_time end_time : option string)
          (w : world),
     let request :=
       Tweepy.Build_SearchRequest query (Z.min max_results 100)
         start_time end_time in
     rate_limited w request 6 ->
     (Twitter.search_tweets query max_results start_time end_time w).1 = Some []) /\
  (forall fuel request retry_delay tweets w,
     twitter w (api_calls w) request = Tweepy.TooManyRequests ->
     Twitter.search_loop (S fuel) request Twitter.max_retries retry_delay tweets w =
     (Some tweets, advance 0 1 0 [ESearch request; EPrint MsgMaxRetries] w)) /\
  (forall fuel request retry_count retry_delay tweets w e,
     (retry_count <= Twitter.max_retries)%nat ->
     twitter w (api_calls w) request = Tweepy.TweepyException e ->
     Twitter.search_loop (S fuel) request retry_count retry_delay tweets w =
     (Some tweets, advance 0 1 0 [ESearch request; EPrint (MsgError e)] w)) /\
  (forall fuel request retry_count retry_delay tweets w,
     (0 < fuel)%nat -> (Twitter.max_retries + 1 < fuel + retry_count)%nat ->
     exists more,
       (Twitter.search_loop fuel request retry_count retry_delay tweets w).1 =
       Some (tweets ++ more)).
Proof.
  split; [|split; [|split; [|split; [|split; [|split; [|split]]]]]].
  - intros query pages n bodies w Hn Hserves Hfails.
    unfold scrape_search_results.
    replace pages with (n + S (pages - S n))%nat at 2 by lia.
    destruct (scrape_pages_served_more urljoin BeautifulSoup base_url query pages n
                (S (pages - S n)) 0 bodies [] w ltac:(lia) Hserves) as (evs & ->).
    rewrite scrape_pages_step. cbv zeta. cbn [Nat.add app].
    assert (Hnone : (get_page urljoin BeautifulSoup base_url (search_url query (S n)) 3
                       (advance n 0 n evs w)).1 = None).
    { apply get_page_none_iff. intros i Hi.
      rewrite network_advance, requests_advance. by apply Hfails. }
    by rewrite Hnone.
  - intros query pages page remaining all_results w Hnone.
    rewrite scrape_pages_step. cbv zeta. by rewrite Hnone.
  - intros. apply scrape_pages_keeps.
  - intros query max_results start_time end_time k e w request Hk Hlimited Herror.
    unfold Twitter.search_tweets. fold request.
    replace (Twitter.max_retries + 2)%nat with (k + S (6 - k))%nat
      by (unfold Twitter.max_retries; lia).
    rewrite search_loop_waits by (unfold Twitter.max_retries; done || lia).
    rewrite search_loop_step.
    rewrite twitter_advance, api_calls_advance, Herror.
    by replace (0 + k <=? Twitter.max_retries)%nat with true
      by (symmetry; apply Nat.leb_le; unfold Twitter.max_retries; lia).
  - intros query max_results start_time end_time w request Hlimited.
    unfold Twitter.search_tweets. fold request.
    change (Twitter.max_retries + 2)%nat with (5 + 2)%nat.
    rewrite search_loop_waits.
    + rewrite search_loop_step. cbn [Nat.add Nat.leb Nat.ltb Twitter.max_retries].
      rewrite api_calls_advance, twitter_advance.
      by rewrite (Hlimited 5%nat) by lia.
    + unfold Twitter.max_retries. lia.
    + intros i Hi. apply Hlimited. lia.
  - intros fuel request retry_delay tweets w Hsignal.
    rewrite search_loop_step, Hsignal. reflexivity.
  - intros fuel request retry_count retry_delay tweets w e Hbudget Herror.
    rewrite search_loop_step, Herror.
    by replace (retry_count <=? Twitter.max_retries)%nat with true
      by (symmetry; by apply Nat.leb_le).
  - intros fuel request retry_count retry_delay tweets w Hfuel Henough.
    destruct (search_loop_total fuel request retry_count retry_delay tweets w
                Hfuel Henough) as [result Hresult].
    destruct (search_loop_keeps _ _ _ _ _ _ _ Hresult) as [more ->].
    by exists more.
Qed.

Lemma C4_failure_keeps_collected_records_witness :
  map title
    (scrape_search_results Examples.join Examples.parse Examples.site "ssh" 3
       (Examples.one_page_then_down 0)).1 = ["One"; "Three"].
Proof.
  rewrite (proj1 (C4_failure_keeps_collected_records
                    Examples.join Examples.parse Examples.site)
             "ssh" 3%nat 1%nat (fun _ => "page") (Examples.one_page_then_down 0)).
  - vm_compute. reflexivity.
  - lia.
  - intros i Hi. assert (i = 0%nat) as -> by lia.
    split; [reflexivity|]. vm_compute. discriminate.
  - intros i Hi. destruct i as [|[|[|i]]]; [reflexivity|reflexivity|reflexivity|lia].
Defined.
